(** * Super-Robot: signal aggregation and session loop

    A shallow embedding of [technical.py] (class [TechnicalAnalyzer]) and of
    the main loop of [bot.py], with the properties of the specification
    stated and proved over it.

    Numbers.  The program computes on IEEE doubles held in pandas columns.
    A cell is modelled as a [float]: either a finite rational [Num q] or the
    missing value [NaN]; arithmetic on finite cells is exact (no rounding,
    no overflow), comparisons with [NaN] are false, as in Python. *)

From Stdlib Require Import String ZArith QArith Bool List Lia Lqa.
Import ListNotations.

Set Implicit Arguments.
Open Scope Q_scope.

(** ** Cells *)

Inductive float : Type :=
| Num (q : Q)
| NaN.

Definition Qltb (x y : Q) : bool := negb (Qle_bool y x).

(** [a < b] and [a > b] on cells: false as soon as one side is [NaN]. *)
Definition flt (a b : float) : bool :=
  match a, b with
  | Num x, Num y => Qltb x y
  | _, _ => false
  end.

Definition fgt (a b : float) : bool := flt b a.

Definition fle (a b : float) : bool :=
  match a, b with
  | Num x, Num y => Qle_bool x y
  | _, _ => false
  end.

Definition is_nan (a : float) : bool :=
  match a with NaN => true | Num _ => false end.

(** ** Exceptions and results *)

Inductive Exn : Type :=
| KeyError (key : string)
| IndexError
| ZeroDivisionError
| BrokerError (what : string).

Inductive result (A : Type) : Type :=
| Ok (a : A)
| Raise (e : Exn).

Arguments Ok {A} a.
Arguments Raise {A} e.

Definition rbind {A B} (r : result A) (k : A -> result B) : result B :=
  match r with
  | Ok a => k a
  | Raise e => Raise e
  end.

(** [x / y] on cells.  Dividing by zero is reported as an exception, so that
    a caller which never divides by zero is one which never raises it. *)
Definition fdiv (a b : float) : result float :=
  match a, b with
  | Num x, Num y => if Qeq_bool y 0 then Raise ZeroDivisionError else Ok (Num (x / y))
  | _, _ => Ok NaN
  end.

(** ** Columns *)

(** [col.iloc[-1]] *)
Fixpoint iloc_last {A} (col : list A) : result A :=
  match col with
  | [] => Raise IndexError
  | [x] => Ok x
  | _ :: rest => iloc_last rest
  end.

(** [Series.min()] and [Series.max()]: missing cells are skipped, and the
    result is missing when nothing is left. *)
Definition min_step (acc x : float) : float :=
  match x, acc with
  | NaN, _ => acc
  | Num q, NaN => Num q
  | Num q, Num m => if Qltb q m then Num q else Num m
  end.

Definition max_step (acc x : float) : float :=
  match x, acc with
  | NaN, _ => acc
  | Num q, NaN => Num q
  | Num q, Num m => if Qltb m q then Num q else Num m
  end.

Definition series_min (col : list float) : float := fold_left min_step col NaN.
Definition series_max (col : list float) : float := fold_left max_step col NaN.

(** [Series.idxmin()] and [Series.idxmax()] under the default index
    0, 1, 2, ...: the row of the first cell that holds the extreme, missing
    cells skipped.  [best] is the row and value kept so far, [i] the row
    [col] starts at. *)
Fixpoint arg_extreme (better : Q -> Q -> bool) (i : nat) (best : option (nat * Q))
    (col : list float) : option (nat * Q) :=
  match col with
  | [] => best
  | NaN :: rest => arg_extreme better (S i) best rest
  | Num q :: rest =>
      match best with
      | None => arg_extreme better (S i) (Some (i, q)) rest
      | Some (_, m) =>
          if better q m then arg_extreme better (S i) (Some (i, q)) rest
          else arg_extreme better (S i) best rest
      end
  end.

Definition idxmin (col : list float) : option nat :=
  option_map fst (arg_extreme (fun q m => Qltb q m) 0 None col).

Definition idxmax (col : list float) : option nat :=
  option_map fst (arg_extreme (fun q m => Qltb m q) 0 None col).

(** Sum of a window; [None] when the window holds a missing cell. *)
Fixpoint window_sum (win : list float) : option Q :=
  match win with
  | [] => Some 0
  | Num q :: rest =>
      match window_sum rest with
      | Some s => Some (q + s)
      | None => None
      end
  | NaN :: _ => None
  end.

(** The last [w] cells of [col] (all of it when it is shorter). *)
Definition tail_window {A} (w : nat) (col : list A) : list A :=
  skipn (length col - w) col.

(** One cell of [Series.rolling(w).mean()]: [seen] is the column up to and
    including the row.  With the default [min_periods = w] the cell is
    missing until [w] rows were seen, and whenever one of the [w] cells is
    missing; a window of zero rows has no mean. *)
Definition rolling_mean_at (w : nat) (seen : list float) : float :=
  if (w =? 0)%nat || (length seen <? w)%nat then NaN
  else match window_sum (tail_window w seen) with
       | Some s => Num (s / inject_Z (Z.of_nat w))
       | None => NaN
       end.

(** One cell of [Series.rolling(w).min()] or [.max()], under the same rule
    for missing cells. *)
Definition rolling_extreme_at (step : float -> float -> float) (w : nat)
    (seen : list float) : float :=
  if (w =? 0)%nat || (length seen <? w)%nat then NaN
  else if existsb is_nan (tail_window w seen) then NaN
  else fold_left step (tail_window w seen) NaN.

(** [Series.rolling(w)] with one of the above: right-aligned, one cell per
    row. *)
Definition rolling (cell : nat -> list float -> float) (w : nat)
    (col : list float) : list float :=
  map (fun i => cell w (firstn (S i) col)) (seq 0 (length col)).

Definition rolling_mean : nat -> list float -> list float :=
  rolling rolling_mean_at.

(** ** technical.py *)

Module Technical.

Record Candle : Type := {
  open : float;
  high : float;
  low : float;
  close : float;
  volume : float
}.

(** A frame: its rows, and the two columns that
    [calculate_moving_averages] adds ([None] while a column is absent).
    A frame without rows is the one [pd.DataFrame([])] builds: it has no
    columns at all. *)
Record DataFrame : Type := {
  rows : list Candle;
  MA_fast : option (list float);
  MA_slow : option (list float)
}.

Definition column (f : Candle -> float) (name : string) (df : DataFrame)
  : result (list float) :=
  match rows df with
  | [] => Raise (KeyError name)
  | _ => Ok (map f (rows df))
  end.

Definition added_column (c : option (list float)) (name : string)
  : result (list float) :=
  match c with
  | Some col => Ok col
  | None => Raise (KeyError name)
  end.

Record TechnicalAnalyzer : Type := {
  ma_fast : nat;
  ma_slow : nat;
  volume_period : nat
}.

Inductive Trend : Type := up | down | flat.
Inductive Breakout : Type := breakout_up | breakout_down.

Definition calculate_moving_averages (self : TechnicalAnalyzer) (df : DataFrame)
  : result DataFrame :=
  rbind (column close "close" df) (fun closes =>
  Ok {| rows := rows df;
        MA_fast := Some (rolling_mean (ma_fast self) closes);
        MA_slow := Some (rolling_mean (ma_slow self) closes) |}).

Definition detect_trend (df : DataFrame) : result Trend :=
  rbind (iloc_last (rows df)) (fun _ =>
  rbind (rbind (added_column (MA_fast df) "MA_fast") iloc_last) (fun fast =>
  rbind (rbind (added_column (MA_slow df) "MA_slow") iloc_last) (fun slow =>
  if fgt fast slow then Ok up
  else if flt fast slow then Ok down
  else Ok flat))).

Definition detect_breakout (df : DataFrame) : result (option Breakout) :=
  rbind (column low "low" df) (fun lows =>
  let support := series_min lows in
  rbind (column high "high" df) (fun highs =>
  let resistance := series_max highs in
  rbind (rbind (column close "close" df) iloc_last) (fun last_close =>
  if fgt last_close resistance then Ok (Some breakout_up)
  else if flt last_close support then Ok (Some breakout_down)
  else Ok None))).

(** [cdl_pattern] stands for pandas-ta's [df.ta.cdl_pattern]: the columns it
    appends to the frame, each with its value in the last row.  Those named
    [CDL_...] whose last value is not zero are the patterns found. *)
Definition detect_candlestick_patterns
    (cdl_pattern : list Candle -> list (string * Z)) (df : DataFrame)
  : list (string * Z) :=
  filter (fun cv => String.prefix "CDL_" (fst cv) && negb (snd cv =? 0)%Z)
         (cdl_pattern (rows df)).

Definition support_resistance (df : DataFrame) (lookback : nat)
  : result (float * float) :=
  rbind (rbind (column low "low" df) (fun lows =>
         iloc_last (rolling (rolling_extreme_at min_step) lookback lows)))
        (fun support =>
  rbind (rbind (column high "high" df) (fun highs =>
         iloc_last (rolling (rolling_extreme_at max_step) lookback highs)))
        (fun resistance =>
  Ok (support, resistance))).

(** [df.at[idx, name]], where [idx] is what [idxmin] or [idxmax] gave.  On
    a column without a single number that is the missing value, which is
    not a row label: the lookup is a [KeyError]. *)
Definition at_row (idx : option nat) (col : list float) : result (nat * float) :=
  match idx with
  | Some i =>
      match nth_error col i with
      | Some x => Ok (i, x)
      | None => Raise (KeyError "nan")
      end
  | None => Raise (KeyError "nan")
  end.

(** The two items of the dictionary, ["LTA"] then ["LTB"]. *)
Definition draw_trendlines (df : DataFrame)
  : result ((nat * float) * (nat * float)) :=
  rbind (column high "high" df) (fun highs =>
  let top_idx := idxmax highs in
  rbind (column low "low" df) (fun lows =>
  let bottom_idx := idxmin lows in
  rbind (at_row bottom_idx lows) (fun lta =>
  rbind (at_row top_idx highs) (fun ltb =>
  Ok (lta, ltb))))).

Definition validate_candle_pattern (c : Candle) (pattern_name : string) : bool :=
  true.

End Technical.

(** ** bot.py *)

Module Bot.
Import Technical.

Definition asset : Type := string.

Inductive Direction : Type := call | put.

(** A candle as the broker returns it: the extremes are called [min] and
    [max] there. *)
Record IQCandle : Type := {
  iq_open : float;
  iq_close : float;
  iq_min : float;
  iq_max : float;
  iq_volume : float
}.

(** The [features] dictionary built for the predictor. *)
Record Features : Type := {
  f_pattern_name : string;
  f_breakout : option Breakout;   (* [None] stands for the string "none" *)
  f_trend : Trend;
  f_volume_ratio : float;
  f_payout : Q
}.

(** The entries of [config.yaml] which the loop reads itself. *)
Record Config : Type := {
  assets : list asset;
  timeframe_main : Z;
  min_payout : Q;
  max_payout : Q;
  trend_ma_fast : nat;
  trend_ma_slow : nat;
  cfg_volume_period : nat;
  stop_win_victories : Z
}.

Inductive Level : Type := info | error.

(** The texts passed to [log]. *)
Inductive Message : Type :=
| MsgConnectFailed (exc : Exn)     (* "Falha ao conectar: ..." *)
| MsgMainLoop                      (* "Loop principal..." *)
| MsgNewsWait                      (* "Esperando — notícia importante próxima..." *)
| MsgDailyStopWin                  (* "Stop win diário atingido — esperando até amanhã..." *)
| MsgCandleError (exc : Exn)       (* "Erro ao obter velas: ..." *)
| MsgEntering (a : asset) (d : Direction) (amount : Q)
| MsgOrderError (exc : Exn)        (* "Erro ao executar ordem: ..." *)
| MsgNextCycle.                    (* "Esperando próximo ciclo..." *)

(** Every call the loop makes on a collaborator, in the order made. *)
Inductive Event : Type :=
| EvLog (lvl : Level) (m : Message)
| EvConnect
| EvChangeBalance
| EvCheckAndTrainDaily
| EvCheckHighImpactNews (answer : bool)
| EvSleep (seconds : Z)
| EvNow (t : Z)
| EvGetAllProfit
| EvGetCandles (a : asset) (timeframe : Z) (n : Z)
| EvCanTrade (a : asset) (answer : bool)
| EvPredictHighChance (f : Features) (answer : bool)
| EvNextAmount (a : asset) (payout : Q) (amount : Q)
| EvBuy (amount : Q) (a : asset) (d : Direction)
| EvCheckWin (order_id : Z)
| EvRegisterTrade (a : asset) (won : bool)
| EvLogTrade (f : Features) (won : bool).

Definition History : Type := list Event.

(** The collaborators.  Each answers from the history of the calls made so
    far, which is as much as a deterministic collaborator with a state of
    its own can depend on.  [cdl_pattern] is pandas-ta's pattern scan: the
    columns it appends to a frame, each with its value in the last row. *)
Record Env : Type := {
  connect : History -> result unit;
  check_high_impact_news : History -> bool;
  timestamp_now : History -> Z;
  get_all_profit : History -> list (asset * list (string * Q));
  get_candles : History -> asset -> Z -> Z -> result (list IQCandle);
  cdl_pattern : list Candle -> list (string * Z);
  can_trade : History -> asset -> bool;
  predict_high_chance : History -> Features -> bool;
  next_amount : History -> asset -> bool -> Q -> Q;
  buy : History -> Q -> asset -> Direction -> Z -> result (bool * Z);
  check_win : History -> Z -> result (bool * Q)
}.

(** The loop's own variables. *)
Record Session : Type := {
  daily_wins : Z;
  last_trade_date : option Z   (* a timestamp, in nanoseconds *)
}.

(** *** State and exceptions *)

Definition M (A : Type) : Type := History -> result A * History.

Definition ret {A} (a : A) : M A := fun h => (Ok a, h).

Definition bind {A B} (m : M A) (k : A -> M B) : M B :=
  fun h => match m h with
           | (Ok a, h') => k a h'
           | (Raise e, h') => (Raise e, h')
           end.

Definition lift {A} (r : result A) : M A := fun h => (r, h).

(** [try: m except Exception as exc: ...] hands the exception over as a value. *)
Definition try_except {A} (m : M A) : M (result A) :=
  fun h => match m h with (r, h') => (Ok r, h') end.

(** A call: the collaborator answers from the history, the call is recorded. *)
Definition call_with {A} (answer : History -> A) (ev : A -> Event) : M A :=
  fun h => let a := answer h in (Ok a, h ++ [ev a]).

Definition emit (ev : Event) : M unit := fun h => (Ok tt, h ++ [ev]).

Definition log (lvl : Level) (m : Message) : M unit := emit (EvLog lvl m).

Declare Scope bot_scope.
Delimit Scope bot_scope with bot.
Notation "x <- m ;; k" := (bind m (fun x => k))
  (at level 61, m at next level, right associativity) : bot_scope.
Notation "m ;; k" := (bind m (fun _ => k))
  (at level 61, right associativity) : bot_scope.
Open Scope bot_scope.

(** *** Dictionaries *)

Fixpoint dict_get {V} (d : list (string * V)) (key : string) (default : V) : V :=
  match d with
  | [] => default
  | (k, v) :: rest => if String.eqb k key then v else dict_get rest key default
  end.

(** *** Calendar *)

Definition nanoseconds_per_day : Z := 86400 * 1000000000.

(** [Timestamp.date()], as a day number. *)
Definition date (t : Z) : Z := (t / nanoseconds_per_day)%Z.

Section WithCollaborators.

Variable env : Env.
Variable config : Config.

Definition technical : TechnicalAnalyzer :=
  {| ma_fast := trend_ma_fast config;
     ma_slow := trend_ma_slow config;
     volume_period := cfg_volume_period config |}.

(** [get_candles_df]: fetch, build the frame, rename [min] and [max]. *)
Definition rename (c : IQCandle) : Candle :=
  {| open := iq_open c; high := iq_max c; low := iq_min c;
     close := iq_close c; volume := iq_volume c |}.

Definition get_candles_df (a : asset) (timeframe num_candles : Z) : M DataFrame :=
  fun h =>
    let h' := h ++ [EvGetCandles a timeframe num_candles] in
    match get_candles env h a timeframe num_candles with
    | Ok candles =>
        (Ok {| rows := map rename candles; MA_fast := None; MA_slow := None |}, h')
    | Raise e => (Raise e, h')
    end.

(** Lines 103-104: the relative volume of the last candle. *)
Definition volume_ratio (df : DataFrame) (last_candle : Candle) : result float :=
  rbind (rbind (column volume "volume" df) (fun vols =>
         iloc_last (rolling_mean (cfg_volume_period config) vols))) (fun avg_volume =>
  if fgt avg_volume (Num 0) then fdiv (volume last_candle) avg_volume
  else Ok (Num 0)).

(** Line 105 *)
Definition high_chance_basic (breakout : option Breakout) (pattern_name : option string)
    (ratio : float) (trend : Trend) : bool :=
  match breakout with Some _ => true | None => false end
  && match pattern_name with Some s => negb (String.eqb s "") | None => false end
  && fgt ratio (Num 1)
  && match trend with flat => false | _ => true end.

(** Lines 118-122 *)
Definition infer_direction (breakout : option Breakout) (trend : Trend)
  : option Direction :=
  match breakout, trend with
  | Some breakout_up, up => Some call
  | Some breakout_down, down => Some put
  | _, _ => None
  end.

(** Lines 128-141: stake, order, outcome; gives the new [daily_wins]. *)
Definition place_order (a : asset) (direction : Direction) (features : Features)
    (payout : Q) (wins : Z) : M Z :=
  amount <- (fun h => let x := next_amount env h a true payout in
                      (Ok x, h ++ [EvNextAmount a payout x])) ;;
  log info (MsgEntering a direction amount) ;;
  r <- try_except (bought <- (fun h => (buy env h amount a direction 1,
                                  h ++ [EvBuy amount a direction])) ;;
            checked <- (fun h => (check_win env h (snd bought),
                                  h ++ [EvCheckWin (snd bought)])) ;;
            ret (fst checked)) ;;
  won <- match r with
         | Ok won => ret won
         | Raise exc => log error (MsgOrderError exc) ;; ret false
         end ;;
  emit (EvRegisterTrade a won) ;;
  emit (EvLogTrade features won) ;;
  ret (if won then (wins + 1)%Z else wins).

(** Lines 95-114: what is read off a fetched frame. *)
Definition analyse (payout : Q) (df0 : DataFrame)
  : result (option Breakout * Trend * Features) :=
  rbind (calculate_moving_averages technical df0) (fun df =>
  rbind (detect_breakout df) (fun breakout =>
  rbind (detect_trend df) (fun trend =>
  let patterns := detect_candlestick_patterns (cdl_pattern env) df in
  let pattern_name := match patterns with [] => None | p :: _ => Some (fst p) end in
  rbind (iloc_last (rows df)) (fun last_candle =>
  rbind (volume_ratio df last_candle) (fun ratio =>
  let _ := high_chance_basic breakout pattern_name ratio trend in
  let features :=
    {| f_pattern_name :=
         match pattern_name with
         | Some s => if String.eqb s "" then "unknown"%string else s
         | None => "unknown"%string
         end;
       f_breakout := breakout;
       f_trend := trend;
       f_volume_ratio := ratio;
       f_payout := payout |} in
  Ok (breakout, trend, features)))))).

(** Lines 116-141: the checks between a signal and an order. *)
Definition trade_on_signal (a : asset) (payout : Q) (breakout : option Breakout)
    (trend : Trend) (features : Features) (wins : Z) : M Z :=
  match breakout with
  | None => ret wins
  | Some _ =>
      tradeable <- call_with (fun h => can_trade env h a) (EvCanTrade a) ;;
      if tradeable then
        match infer_direction breakout trend with
        | None => ret wins
        | Some direction =>
            high <- call_with (fun h => predict_high_chance env h features)
                              (EvPredictHighChance features) ;;
            if high then place_order a direction features payout wins
            else ret wins
        end
      else ret wins
  end.

(** Lines 83-141: the body of [for asset in config['assets']]; gives the new
    [daily_wins]. *)
Definition scan_asset (all_profit : list (asset * list (string * Q)))
    (a : asset) (wins : Z) : M Z :=
  let payout := dict_get (dict_get all_profit a []) "turbo" 0 in
  if Qltb payout (min_payout config) || Qltb (max_payout config) payout
  then ret wins
  else
    fetched <- try_except (get_candles_df a (timeframe_main config) 100) ;;
    match fetched with
    | Raise exc => log error (MsgCandleError exc) ;; ret wins
    | Ok df0 =>
        signal <- lift (analyse payout df0) ;;
        let '(breakout, trend, features) := signal in
        trade_on_signal a payout breakout trend features wins
    end.

Fixpoint for_assets (all_profit : list (asset * list (string * Q)))
    (todo : list asset) (wins : Z) : M Z :=
  match todo with
  | [] => ret wins
  | a :: rest =>
      wins' <- scan_asset all_profit a wins ;;
      for_assets all_profit rest wins'
  end.

(** Lines 68-71 *)
Definition rollover (s : Session) (now : Z) : Session :=
  {| daily_wins :=
       match last_trade_date s with
       | None => 0%Z
       | Some t => if (date t <? date now)%Z then 0%Z else daily_wins s
       end;
     last_trade_date := Some now |}.

(** Lines 58-144: one turn of [while True]. *)
Definition cycle (s : Session) : M Session :=
  log info MsgMainLoop ;;
  emit EvCheckAndTrainDaily ;;
  news <- call_with (check_high_impact_news env) EvCheckHighImpactNews ;;
  if news then
    log info MsgNewsWait ;;
    emit (EvSleep 60) ;;
    ret s
  else
    now <- call_with (timestamp_now env) EvNow ;;
    let s1 := rollover s now in
    if (stop_win_victories config <=? daily_wins s1)%Z then
      log info MsgDailyStopWin ;;
      emit (EvSleep (60 * 60)) ;;
      ret s1
    else
      all_profit <- (fun h => (Ok (get_all_profit env h), h ++ [EvGetAllProfit])) ;;
      wins <- for_assets all_profit (assets config) (daily_wins s1) ;;
      log info MsgNextCycle ;;
      emit (EvSleep (timeframe_main config)) ;;
      ret {| daily_wins := wins; last_trade_date := last_trade_date s1 |}.

(** [while True], cut after [turns] turns. *)
Fixpoint main_loop (turns : nat) (s : Session) : M Session :=
  match turns with
  | O => ret s
  | S k => s' <- cycle s ;; main_loop k s'
  end.

(** [main], with the loop cut after [turns] turns; [None] when the
    connection failed and [main] returned at once. *)
Definition main (turns : nat) : M (option Session) :=
  connected <- try_except (fun h => (connect env h, h ++ [EvConnect])) ;;
  match connected with
  | Raise exc => log error (MsgConnectFailed exc) ;; ret None
  | Ok _ =>
      emit EvChangeBalance ;;
      s <- main_loop turns {| daily_wins := 0; last_trade_date := None |} ;;
      ret (Some s)
  end.

End WithCollaborators.

End Bot.

Unset Implicit Arguments.

(** * Specification vocabulary *)

Import Technical.

(** ** Windows *)

(** A frame as [get_candles_df] hands it over. *)
Definition frame (candles : list Candle) : DataFrame :=
  {| rows := candles; MA_fast := None; MA_slow := None |}.

Definition candle (o h l c v : Q) : Candle :=
  {| open := Num o; high := Num h; low := Num l; close := Num c; volume := Num v |}.

(** A candle whose close lies between its low and its high. *)
Definition well_formed (c : Candle) : bool :=
  fle (low c) (close c) && fle (close c) (high c).

(** [m] is the least (greatest) of the cells of [col] that hold a number,
    and is missing exactly when none does. *)
Definition minimum_of (col : list float) (m : float) : Prop :=
  match m with
  | NaN => forall q, ~ In (Num q) col
  | Num q => In (Num q) col /\ forall x, In (Num x) col -> q <= x
  end.

Definition maximum_of (col : list float) (m : float) : Prop :=
  match m with
  | NaN => forall q, ~ In (Num q) col
  | Num q => In (Num q) col /\ forall x, In (Num x) col -> x <= q
  end.

(** The two levels [detect_breakout] compares the last close with. *)
Definition support (window : list Candle) : float := series_min (map low window).
Definition resistance (window : list Candle) : float := series_max (map high window).

(** The trend the loop reads off a fetched window: the averages are added,
    then compared ([bot.py], lines 95 and 97). *)
Definition trend_of (self : TechnicalAnalyzer) (window : list Candle) : result Trend :=
  rbind (calculate_moving_averages self (frame window)) detect_trend.

(** The most recent cell of an average of period [w]. *)
Definition last_ma (w : nat) (window : list Candle) : float :=
  rolling_mean_at w (map close window).

(** The direction read off a window: breakout and trend as the loop
    computes them, combined as in lines 118-122 of [bot.py]. *)
Definition direction_of (self : TechnicalAnalyzer) (window : list Candle)
  : result (option Bot.Direction) :=
  rbind (detect_breakout (frame window)) (fun breakout =>
  rbind (trend_of self window) (fun trend =>
  Ok (Bot.infer_direction breakout trend))).

(** The average volume the ratio divides by (line 103). *)
Definition avg_volume (config : Bot.Config) (window : list Candle) : float :=
  rolling_mean_at (Bot.cfg_volume_period config) (map volume window).

Definition qsum (qs : list Q) : Q := fold_right Qplus 0 qs.

(** Each number strictly above the one before. *)
Fixpoint rising (qs : list Q) : bool :=
  match qs with
  | q :: (q' :: _) as rest => Qltb q q' && rising rest
  | _ => true
  end.

(** The scenario of 60 candles closing higher and higher, from 100 to 160,
    read with periods 5 and 20. *)
Definition scenario_analyzer : TechnicalAnalyzer :=
  {| ma_fast := 5; ma_slow := 20; volume_period := 20 |}.

Definition rising_scenario (window : list Candle) (qs : list Q) : Prop :=
  length window = 60%nat /\ map close window = map Num qs /\ rising qs = true /\
  nth 0 qs 0 == 100 /\ nth 59 qs 0 == 160.

(** ** The session loop *)

(** An order sent to the broker. *)
Definition is_order (e : Bot.Event) : bool :=
  match e with
  | Bot.EvBuy _ _ _ => true
  | _ => false
  end.

(** The calls that make up the scan of the instruments: payout lookup,
    candle fetch, eligibility, prediction, staking, order and outcome. *)
Definition is_scan (e : Bot.Event) : bool :=
  match e with
  | Bot.EvGetAllProfit | Bot.EvGetCandles _ _ _ | Bot.EvCanTrade _ _
  | Bot.EvPredictHighChance _ _ | Bot.EvNextAmount _ _ _ | Bot.EvBuy _ _ _
  | Bot.EvCheckWin _ | Bot.EvRegisterTrade _ _ | Bot.EvLogTrade _ _ => true
  | _ => false
  end.

(** The trades won among the calls of [trace]. *)
Fixpoint count_wins (trace : list Bot.Event) : Z :=
  match trace with
  | [] => 0
  | Bot.EvRegisterTrade _ true :: rest => 1 + count_wins rest
  | _ :: rest => count_wins rest
  end.

(** The payout filter of lines 84-86 lets the instrument through. *)
Definition payout_in_band (config : Bot.Config)
    (all_profit : list (Bot.asset * list (string * Q))) (a : Bot.asset) : bool :=
  let payout := Bot.dict_get (Bot.dict_get all_profit a []) "turbo" 0 in
  negb (Qltb payout (Bot.min_payout config) || Qltb (Bot.max_payout config) payout).

(** Whether the turn that reads the time [now] starts a new day for [s]. *)
Definition new_day (s : Bot.Session) (now : Z) : bool :=
  match Bot.last_trade_date s with
  | None => true
  | Some t => (Bot.date t <? Bot.date now)%Z
  end.

(** The calls that open every turn of the loop. *)
Definition turn_opening : list Bot.Event :=
  [Bot.EvLog Bot.info Bot.MsgMainLoop; Bot.EvCheckAndTrainDaily].

(** What the news check answers in the turn that starts at history [h], and
    the time the turn reads once that check let it through. *)
Definition news_reported (env : Bot.Env) (h : Bot.History) : bool :=
  Bot.check_high_impact_news env (h ++ turn_opening).

Definition time_read (env : Bot.Env) (h : Bot.History) : Z :=
  Bot.timestamp_now env (h ++ turn_opening ++ [Bot.EvCheckHighImpactNews false]).

(** No fetch ever succeeds with a window that holds no candle. *)
Definition never_empty_window (env : Bot.Env) (config : Bot.Config) : Prop :=
  forall h a, Bot.get_candles env h a (Bot.timeframe_main config) 100 <> Ok [].


(** ** Statements of the specification that do not hold as worded *)

(** The rising scenario gives an upward trend, an upward breakout and a
    call. *)
Definition scenario_outcome_as_claimed (window : list Candle) : Prop :=
  trend_of scenario_analyzer window = Ok up /\
  detect_breakout (frame window) = Ok (Some breakout_up) /\
  direction_of scenario_analyzer window = Ok (Some Bot.call).

(** The breakout rule with each outcome tied to one comparison alone. *)
Definition one_comparison_each (window : list Candle) (last : Candle)
  : Prop :=
  (detect_breakout (frame window) = Ok (Some breakout_up)
     <-> fgt (close last) (resistance window) = true) /\
  (detect_breakout (frame window) = Ok (Some breakout_down)
     <-> flt (close last) (support window) = true) /\
  (flt (support window) (close last) = true ->
   flt (close last) (resistance window) = true ->
   detect_breakout (frame window) = Ok None).

(** The volume ratio is a number, and not a negative one. *)
Definition volume_ratio_not_negative (config : Bot.Config) (window : list Candle)
    (last : Candle) : Prop :=
  exists q, Bot.volume_ratio config (frame window) last = Ok (Num q) /\ 0 <= q.

(** A window too short for the slow average still classifies, as flat. *)
Definition short_window_is_flat (self : TechnicalAnalyzer) (window : list Candle)
  : Prop :=
  (length window < ma_slow self)%nat -> trend_of self window = Ok flat.


(** ** Concrete windows and scripted collaborators, for examples *)

(** A rising scenario: the close climbs by 60/59 a candle, and each candle
    spans one unit below and one above its close. *)
Definition scenario_close (i : nat) : Q := 100 + inject_Z (Z.of_nat i) * (60 # 59).

Definition scenario_window : list Candle :=
  map (fun i => let c := scenario_close i in candle c (c + 1) (c - 1) c 10)
      (seq 0 60).

(** A candle whose high lies below its low. *)
Definition crossed_candle : Candle := candle 2 1 3 2 10.

(** Two candles of which the last reports a volume below zero. *)
Definition negative_volume_window : list Candle :=
  [candle 1 1 1 1 3; candle 1 1 1 1 (-1)].

(** A configuration with short periods and a cap of two wins a day. *)
Definition small_config : Bot.Config :=
  {| Bot.assets := ["EURUSD"%string; "GBPUSD"%string];
     Bot.timeframe_main := 60;
     Bot.min_payout := 70 # 100;
     Bot.max_payout := 95 # 100;
     Bot.trend_ma_fast := 1;
     Bot.trend_ma_slow := 2;
     Bot.cfg_volume_period := 2;
     Bot.stop_win_victories := 2 |}.

Definition iq_candle (o c mn mx v : Q) : Bot.IQCandle :=
  {| Bot.iq_open := Num o; Bot.iq_close := Num c; Bot.iq_min := Num mn;
     Bot.iq_max := Num mx; Bot.iq_volume := Num v |}.

(** EURUSD pays 80%, inside the band of [small_config]; GBPUSD pays 50%,
    outside. *)
Definition scripted_profit : list (Bot.asset * list (string * Q)) :=
  [("EURUSD"%string, [("turbo"%string, 80 # 100)]);
   ("GBPUSD"%string, [("turbo"%string, 50 # 100)])].

(** Both instruments pay inside the band of [small_config]. *)
Definition level_profit : list (Bot.asset * list (string * Q)) :=
  [("EURUSD"%string, [("turbo"%string, 80 # 100)]);
   ("GBPUSD"%string, [("turbo"%string, 90 # 100)])].

(** Collaborators that always answer the same: the news check [news], the
    clock [now], the candle fetch [fetched], the broker's [buy] [bought] and
    its [check_win] [outcome]. *)
Definition scripted (news : bool) (now : Z) (fetched : result (list Bot.IQCandle))
    (bought : result (bool * Z)) (outcome : result (bool * Q)) : Bot.Env :=
  {| Bot.connect := fun _ => Ok tt;
     Bot.check_high_impact_news := fun _ => news;
     Bot.timestamp_now := fun _ => now;
     Bot.get_all_profit := fun _ => scripted_profit;
     Bot.get_candles := fun _ _ _ _ => fetched;
     Bot.cdl_pattern := fun _ => [("CDL_DOJI"%string, 100%Z)];
     Bot.can_trade := fun _ _ => true;
     Bot.predict_high_chance := fun _ _ => true;
     Bot.next_amount := fun _ _ _ _ => 1;
     Bot.buy := fun _ _ _ _ _ => bought;
     Bot.check_win := fun _ _ => outcome |}.

(** Two candles closing inside their own range. *)
Definition inside_candles : list Bot.IQCandle :=
  [iq_candle 1 1 0 2 10; iq_candle 2 3 2 4 30].

(** Two candles of which the last closes above every high reported,
    its own included. *)
Definition breaking_candles : list Bot.IQCandle :=
  [iq_candle 1 1 1 1 10; iq_candle 2 3 1 2 30].

Definition noon : Z := 12 * 3600 * 1000000000.

(** ** Further vocabulary *)

(** The value [arg_extreme] keeps, as a cell. *)
Definition kept_value (best : option (nat * Q)) : float :=
  match best with
  | Some (_, m) => Num m
  | None => NaN
  end.

(** The instruments whose candles were fetched, in the order of the calls. *)
Fixpoint fetched (trace : list Bot.Event) : list Bot.asset :=
  match trace with
  | [] => []
  | Bot.EvGetCandles a _ _ :: rest => a :: fetched rest
  | _ :: rest => fetched rest
  end.

Definition is_registered (e : Bot.Event) : bool :=
  match e with
  | Bot.EvRegisterTrade _ _ => true
  | _ => false
  end.

Definition is_logged_trade (e : Bot.Event) : bool :=
  match e with
  | Bot.EvLogTrade _ _ => true
  | _ => false
  end.

Definition is_sleep (e : Bot.Event) : bool :=
  match e with
  | Bot.EvSleep _ => true
  | _ => false
  end.

(** How many calls of [trace] are of the kind [p]. *)
Definition count (p : Bot.Event -> bool) (trace : list Bot.Event) : nat :=
  length (filter p trace).

(** An order, or the booking of one with the staking collaborator or with
    the predictor. *)
Definition is_booking (e : Bot.Event) : bool :=
  is_order e || is_registered e || is_logged_trade e.

(** What becomes of the order for [amount] on [a] that reaches the broker at
    history [h]: the calls [mid] made between the order and its booking, and
    the outcome [won] it is booked with.  An order the broker takes is
    followed by [check_win], and is booked as [check_win] answers; an order
    that fails, there or at [buy], is logged and booked as lost. *)
Definition order_outcome (env : Bot.Env) (h : Bot.History) (amount : Q)
    (a : Bot.asset) (d : Bot.Direction) (mid : list Bot.Event) (won : bool) : Prop :=
  match Bot.buy env h amount a d 1 with
  | Raise e => mid = [Bot.EvLog Bot.error (Bot.MsgOrderError e)] /\ won = false
  | Ok (_, order_id) =>
      match Bot.check_win env (h ++ [Bot.EvBuy amount a d]) order_id with
      | Ok (answer, _) => mid = [Bot.EvCheckWin order_id] /\ won = answer
      | Raise e =>
          mid = [Bot.EvCheckWin order_id; Bot.EvLog Bot.error (Bot.MsgOrderError e)] /\
          won = false
      end
  end.

(** [booked env h trace]: among the calls [trace], made from history [h]
    on, every order is followed by its outcome, by its registration with
    the staking collaborator and by its entry in the predictor's log, in
    that order and before any other order; and nothing is registered or
    logged but an order just sent. *)
Inductive booked (env : Bot.Env) : Bot.History -> list Bot.Event -> Prop :=
| booked_nil (h : Bot.History) : booked env h []
| booked_other (h : Bot.History) (e : Bot.Event) (t : list Bot.Event) :
    is_booking e = false ->
    booked env (h ++ [e]) t ->
    booked env h (e :: t)
| booked_order (h : Bot.History) (amount : Q) (a : Bot.asset) (d : Bot.Direction)
    (mid : list Bot.Event) (won : bool) (f : Bot.Features) (t : list Bot.Event) :
    order_outcome env h amount a d mid won ->
    booked env (h ++ Bot.EvBuy amount a d
                    :: mid ++ [Bot.EvRegisterTrade a won; Bot.EvLogTrade f won]) t ->
    booked env h (Bot.EvBuy amount a d
                    :: mid ++ Bot.EvRegisterTrade a won :: Bot.EvLogTrade f won :: t).

(** A call the scan makes on behalf of instrument [a]: every call of the
    scan that names an instrument names [a]. *)
Definition concerns (a : Bot.asset) (e : Bot.Event) : Prop :=
  match e with
  | Bot.EvGetCandles a' _ _ | Bot.EvCanTrade a' _ | Bot.EvNextAmount a' _ _
  | Bot.EvBuy _ a' _ | Bot.EvRegisterTrade a' _
  | Bot.EvLog Bot.info (Bot.MsgEntering a' _ _) => a' = a
  | Bot.EvLog Bot.error (Bot.MsgCandleError _)
  | Bot.EvLog Bot.error (Bot.MsgOrderError _)
  | Bot.EvPredictHighChance _ _ | Bot.EvCheckWin _ | Bot.EvLogTrade _ _ => True
  | _ => False
  end.

(** The collaborators of [env], behind a broker that refuses the
    connection. *)
Definition offline (env : Bot.Env) (why : Exn) : Bot.Env :=
  {| Bot.connect := fun _ => Raise why;
     Bot.check_high_impact_news := Bot.check_high_impact_news env;
     Bot.timestamp_now := Bot.timestamp_now env;
     Bot.get_all_profit := Bot.get_all_profit env;
     Bot.get_candles := Bot.get_candles env;
     Bot.cdl_pattern := Bot.cdl_pattern env;
     Bot.can_trade := Bot.can_trade env;
     Bot.predict_high_chance := Bot.predict_high_chance env;
     Bot.next_amount := Bot.next_amount env;
     Bot.buy := Bot.buy env;
     Bot.check_win := Bot.check_win env |}.

(** * Cells and columns *)

Lemma Qltb_lt (x y : Q) : Qltb x y = true <-> x < y.
Proof.
  unfold Qltb. rewrite negb_true_iff, <- not_true_iff_false, Qle_bool_iff.
  split; [apply Qnot_le_lt | apply Qlt_not_le].
Qed.

Lemma Qltb_ge (x y : Q) : Qltb x y = false <-> y <= x.
Proof.
  unfold Qltb. rewrite negb_false_iff. apply Qle_bool_iff.
Qed.

Lemma flt_Num (x y : Q) : flt (Num x) (Num y) = true <-> x < y.
Proof. apply Qltb_lt. Qed.

Lemma flt_NaN_l (b : float) : flt NaN b = false.
Proof. reflexivity. Qed.

Lemma flt_NaN_r (a : float) : flt a NaN = false.
Proof. destruct a; reflexivity. Qed.

Lemma fle_Num (a b : float) :
  fle a b = true <-> exists x y, a = Num x /\ b = Num y /\ x <= y.
Proof.
  destruct a as [x|], b as [y|]; simpl; split;
    try discriminate; try (intros (x' & y' & E1 & E2 & _); discriminate).
  - intros H. exists x, y. rewrite <- Qle_bool_iff. auto.
  - intros (x' & y' & E1 & E2 & H). inversion E1; inversion E2; subst.
    now apply Qle_bool_iff.
Qed.

Lemma iloc_last_app {A} (pre : list A) (x : A) : iloc_last (pre ++ [x]) = Ok x.
Proof.
  induction pre as [|a pre IH]; simpl; [reflexivity|].
  rewrite IH. destruct (pre ++ [x]) eqn:E; [|reflexivity].
  destruct pre; discriminate.
Qed.

Lemma iloc_last_nil {A} (col : list A) : col = [] -> iloc_last col = Raise IndexError.
Proof. now intros ->. Qed.

Lemma iloc_last_map {A B} (f : A -> B) (pre : list A) (x : A) :
  iloc_last (map f (pre ++ [x])) = Ok (f x).
Proof. rewrite map_app. apply iloc_last_app. Qed.

Lemma nonempty_snoc {A} (l : list A) : l <> [] -> exists pre x, l = pre ++ [x].
Proof.
  intros H. destruct (exists_last H) as (pre & x & E). now exists pre, x.
Qed.

(** The running minimum and maximum. *)

Lemma min_step_fold (col : list float) :
  minimum_of col (fold_left min_step col NaN) ->
  forall x, minimum_of (col ++ [x]) (min_step (fold_left min_step col NaN) x).
Proof.
  intros H x. destruct x as [q|]; simpl.
  - destruct (fold_left min_step col NaN) as [m|]; simpl in *.
    + destruct H as [Hin Hle]. destruct (Qltb q m) eqn:E.
      * apply Qltb_lt in E. split.
        -- apply in_or_app. right. now left.
        -- intros x Hx. apply in_app_or in Hx. destruct Hx as [Hx|[Hx|[]]].
           ++ apply Hle in Hx. lra.
           ++ inversion Hx; subst. lra.
      * apply Qltb_ge in E. split.
        -- apply in_or_app. now left.
        -- intros x Hx. apply in_app_or in Hx. destruct Hx as [Hx|[Hx|[]]].
           ++ now apply Hle.
           ++ inversion Hx; subst. exact E.
    + split.
      * apply in_or_app. right. now left.
      * intros x Hx. apply in_app_or in Hx. destruct Hx as [Hx|[Hx|[]]].
        -- now apply H in Hx.
        -- inversion Hx; subst. lra.
  - destruct (fold_left min_step col NaN) as [m|]; simpl in *.
    + destruct H as [Hin Hle]. split.
      * apply in_or_app. now left.
      * intros x Hx. apply in_app_or in Hx. destruct Hx as [Hx|[Hx|[]]].
        -- now apply Hle.
        -- discriminate.
    + intros q Hq. apply in_app_or in Hq. destruct Hq as [Hq|[Hq|[]]].
      * now apply H in Hq.
      * discriminate.
Qed.

Lemma series_min_spec (col : list float) : minimum_of col (series_min col).
Proof.
  unfold series_min. induction col as [|x col IH] using rev_ind.
  - simpl. intros q [].
  - rewrite fold_left_app. simpl. now apply min_step_fold.
Qed.

Lemma max_step_fold (col : list float) :
  maximum_of col (fold_left max_step col NaN) ->
  forall x, maximum_of (col ++ [x]) (max_step (fold_left max_step col NaN) x).
Proof.
  intros H x. destruct x as [q|]; simpl.
  - destruct (fold_left max_step col NaN) as [m|]; simpl in *.
    + destruct H as [Hin Hle]. destruct (Qltb m q) eqn:E.
      * apply Qltb_lt in E. split.
        -- apply in_or_app. right. now left.
        -- intros x Hx. apply in_app_or in Hx. destruct Hx as [Hx|[Hx|[]]].
           ++ apply Hle in Hx. lra.
           ++ inversion Hx; subst. lra.
      * apply Qltb_ge in E. split.
        -- apply in_or_app. now left.
        -- intros x Hx. apply in_app_or in Hx. destruct Hx as [Hx|[Hx|[]]].
           ++ now apply Hle.
           ++ inversion Hx; subst. exact E.
    + split.
      * apply in_or_app. right. now left.
      * intros x Hx. apply in_app_or in Hx. destruct Hx as [Hx|[Hx|[]]].
        -- now apply H in Hx.
        -- inversion Hx; subst. lra.
  - destruct (fold_left max_step col NaN) as [m|]; simpl in *.
    + destruct H as [Hin Hle]. split.
      * apply in_or_app. now left.
      * intros x Hx. apply in_app_or in Hx. destruct Hx as [Hx|[Hx|[]]].
        -- now apply Hle.
        -- discriminate.
    + intros q Hq. apply in_app_or in Hq. destruct Hq as [Hq|[Hq|[]]].
      * now apply H in Hq.
      * discriminate.
Qed.

Lemma series_max_spec (col : list float) : maximum_of col (series_max col).
Proof.
  unfold series_max. induction col as [|x col IH] using rev_ind.
  - simpl. intros q [].
  - rewrite fold_left_app. simpl. now apply max_step_fold.
Qed.

(** * Breakout *)

Lemma column_snoc (f : Candle -> float) (name : string) (pre : list Candle)
    (last : Candle) :
  column f name (frame (pre ++ [last])) = Ok (map f (pre ++ [last])).
Proof.
  unfold column, frame; simpl. destruct (pre ++ [last]) eqn:E; [|reflexivity].
  destruct pre; discriminate.
Qed.

(** [detect_breakout] on a frame that has a last row. *)
Lemma detect_breakout_snoc (pre : list Candle) (last : Candle) :
  let window := pre ++ [last] in
  detect_breakout (frame window) =
    if fgt (close last) (series_max (map high window)) then Ok (Some breakout_up)
    else if flt (close last) (series_min (map low window)) then Ok (Some breakout_down)
    else Ok None.
Proof.
  intros window. unfold detect_breakout, window.
  rewrite !column_snoc. simpl. rewrite iloc_last_map. reflexivity.
Qed.

Lemma detect_breakout_empty : detect_breakout (frame []) = Raise (KeyError "low").
Proof. reflexivity. Qed.

Lemma maximum_bounds (col : list float) (q : Q) :
  In (Num q) col -> exists r, series_max col = Num r /\ q <= r.
Proof.
  intros Hin. pose proof (series_max_spec col) as H.
  destruct (series_max col) as [r|]; simpl in H.
  - exists r. split; [reflexivity|]. now apply H.
  - now apply H in Hin.
Qed.

Lemma minimum_bounds (col : list float) (q : Q) :
  In (Num q) col -> exists r, series_min col = Num r /\ r <= q.
Proof.
  intros Hin. pose proof (series_min_spec col) as H.
  destruct (series_min col) as [r|]; simpl in H.
  - exists r. split; [reflexivity|]. now apply H.
  - now apply H in Hin.
Qed.

(** No breakout on a window whose last candle closes between its own low and
    high: the window's extremes include that candle. *)
Lemma no_breakout_inside_own_range (pre : list Candle) (last : Candle) :
  well_formed last = true ->
  detect_breakout (frame (pre ++ [last])) = Ok None.
Proof.
  unfold well_formed. rewrite andb_true_iff, !fle_Num.
  intros [(l & c & El & Ec & Hlc) (c' & h & Ec' & Eh & Hch)].
  rewrite Ec in Ec'. inversion Ec'; subst c'.
  rewrite detect_breakout_snoc. cbv zeta.
  destruct (maximum_bounds (map high (pre ++ [last])) h) as (r & Er & Hr).
  { rewrite <- Eh. apply in_map, in_or_app. right. now left. }
  destruct (minimum_bounds (map low (pre ++ [last])) l) as (m & Em & Hm).
  { rewrite <- El. apply in_map, in_or_app. right. now left. }
  rewrite Er, Em, Ec. unfold fgt. simpl.
  assert (Qltb r c = false) as -> by (apply Qltb_ge; lra).
  assert (Qltb c m = false) as -> by (apply Qltb_ge; lra).
  reflexivity.
Qed.

Lemma breakout_up_iff (pre : list Candle) (last : Candle) :
  detect_breakout (frame (pre ++ [last])) = Ok (Some breakout_up)
  <-> fgt (close last) (resistance (pre ++ [last])) = true.
Proof.
  rewrite detect_breakout_snoc. cbv zeta. fold (resistance (pre ++ [last])).
  destruct (fgt (close last) (resistance (pre ++ [last]))).
  - split; reflexivity.
  - destruct (flt _ _); split; discriminate.
Qed.

(** C3, as amended.  On every window with a most recent candle, support is
    the least low and resistance the greatest high of the whole window, the
    last candle included; the classification is [breakout_up] iff the last
    close is strictly above resistance, [breakout_down] iff it is strictly
    below support and not above resistance, none in every other case, and
    so none whenever the last close lies strictly between the two.  Where
    support does not lie above resistance, being below support is enough
    for [breakout_down]. *)
Theorem breakout_rule (pre : list Candle) (last : Candle) :
  let window := pre ++ [last] in
  minimum_of (map low window) (support window) /\
  maximum_of (map high window) (resistance window) /\
  (detect_breakout (frame window) = Ok (Some breakout_up)
     <-> fgt (close last) (resistance window) = true) /\
  (detect_breakout (frame window) = Ok (Some breakout_down)
     <-> flt (close last) (support window) = true
         /\ fgt (close last) (resistance window) = false) /\
  (detect_breakout (frame window) = Ok None
     <-> fgt (close last) (resistance window) = false
         /\ flt (close last) (support window) = false) /\
  (flt (support window) (close last) = true ->
   flt (close last) (resistance window) = true ->
   detect_breakout (frame window) = Ok None) /\
  (fle (support window) (resistance window) = true ->
   (detect_breakout (frame window) = Ok (Some breakout_down)
      <-> flt (close last) (support window) = true)).
Proof.
  intros window. pose proof (detect_breakout_snoc pre last) as E.
  cbv zeta in E. fold window in E.
  fold (resistance window) in E. fold (support window) in E. rewrite E. clear E.
  split; [apply series_min_spec|]. split; [apply series_max_spec|].
  destruct (close last) as [c|], (resistance window) as [r|],
           (support window) as [m|]; unfold fgt; simpl;
    repeat match goal with |- context [Qltb ?a ?b] =>
             let E := fresh "E" in destruct (Qltb a b) eqn:E end;
    repeat split; intros; try discriminate; try tauto; try reflexivity;
    repeat match goal with
           | H : _ /\ _ |- _ => destruct H
           | H : Qltb _ _ = true |- _ => apply Qltb_lt in H
           | H : Qltb _ _ = false |- _ => apply Qltb_ge in H
           | H : Qle_bool _ _ = true |- _ => apply Qle_bool_iff in H
           end; try discriminate; try lra.
Qed.

(** C3 as worded fails on a window of one candle whose high (1) lies below
    its low (3) and which closes at 2: the close is below support, yet the
    classification is [breakout_up]. *)
Lemma one_comparison_each_fails :
  ~ one_comparison_each [crossed_candle] crossed_candle.
Proof.
  intros (_ & [_ Hdown] & _).
  assert (flt (close crossed_candle) (support [crossed_candle]) = true) as H
    by reflexivity.
  apply Hdown in H. discriminate H.
Qed.

Example crossed_candle_breaks_up :
  detect_breakout (frame [crossed_candle]) = Ok (Some breakout_up).
Proof. reflexivity. Qed.

Lemma breakout_rule_witness :
  let last := candle 3 5 2 4 10 in
  let window := [candle 2 4 1 3 10] ++ [last] in
  flt (support window) (close last) = true /\
  flt (close last) (resistance window) = true /\
  detect_breakout (frame window) = Ok None.
Proof.
  intros last window. split; [reflexivity|]. split; [reflexivity|].
  destruct (breakout_rule [candle 2 4 1 3 10] last) as (_ & _ & _ & _ & _ & H & _).
  apply H; reflexivity.
Defined.

(** * Moving averages and trend *)

Lemma rolling_last (cell : nat -> list float -> float) (w : nat)
    (pre : list float) (x : float) :
  iloc_last (rolling cell w (pre ++ [x])) = Ok (cell w (pre ++ [x])).
Proof.
  unfold rolling. rewrite length_app. cbn [length].
  rewrite Nat.add_1_r, seq_S, map_app. cbn [map Nat.add].
  rewrite iloc_last_app. f_equal. f_equal.
  apply firstn_all2. rewrite length_app. cbn [length]. lia.
Qed.

Lemma rolling_mean_last (w : nat) (pre : list float) (x : float) :
  iloc_last (rolling_mean w (pre ++ [x])) = Ok (rolling_mean_at w (pre ++ [x])).
Proof. apply rolling_last. Qed.

Lemma rolling_length (cell : nat -> list float -> float) (w : nat)
    (col : list float) :
  length (rolling cell w col) = length col.
Proof. unfold rolling. now rewrite length_map, length_seq. Qed.

Lemma trend_of_snoc (self : TechnicalAnalyzer) (pre : list Candle) (last : Candle) :
  let window := pre ++ [last] in
  let fast := last_ma (ma_fast self) window in
  let slow := last_ma (ma_slow self) window in
  trend_of self window =
    if fgt fast slow then Ok up else if flt fast slow then Ok down else Ok flat.
Proof.
  intros window fast slow. unfold trend_of, calculate_moving_averages, window.
  rewrite column_snoc. simpl rbind. unfold detect_trend. simpl rows.
  rewrite iloc_last_app. simpl rbind.
  rewrite !map_app. simpl map. rewrite !rolling_mean_last.
  simpl rbind. unfold fast, slow, last_ma, window. now rewrite !map_app.
Qed.

Lemma trend_of_empty (self : TechnicalAnalyzer) :
  trend_of self [] = Raise (KeyError "close").
Proof. reflexivity. Qed.

(** A window shorter than the period, or a period of zero, has no average. *)
Lemma last_ma_short (w : nat) (window : list Candle) :
  (length window < w)%nat -> last_ma w window = NaN.
Proof.
  intros H. unfold last_ma, rolling_mean_at. rewrite length_map.
  apply Nat.ltb_lt in H. rewrite H, orb_true_r. reflexivity.
Qed.

Lemma window_sum_Num (qs : list Q) : window_sum (map Num qs) = Some (qsum qs).
Proof.
  induction qs as [|q qs IH]; simpl; [reflexivity|]. now rewrite IH.
Qed.

Lemma tail_window_map {A B} (f : A -> B) (w : nat) (l : list A) :
  tail_window w (map f l) = map f (tail_window w l).
Proof. unfold tail_window. now rewrite length_map, skipn_map. Qed.

(** Where the average is available on numbers, it is their sum over the
    period. *)
Lemma rolling_mean_at_Num (w : nat) (qs : list Q) :
  (1 <= w)%nat -> (w <= length qs)%nat ->
  rolling_mean_at w (map Num qs) =
    Num (qsum (tail_window w qs) / inject_Z (Z.of_nat w)).
Proof.
  intros H1 H2. unfold rolling_mean_at. rewrite length_map.
  assert ((w =? 0)%nat = false) as -> by (apply Nat.eqb_neq; lia).
  assert ((length qs <? w)%nat = false) as -> by (apply Nat.ltb_ge; lia).
  simpl. now rewrite tail_window_map, window_sum_Num.
Qed.

Lemma tail_window_length {A} (w : nat) (l : list A) :
  (w <= length l)%nat -> length (tail_window w l) = w.
Proof. intros H. unfold tail_window. rewrite length_skipn. lia. Qed.

Lemma qsum_constant (c : Q) (qs : list Q) :
  (forall q, In q qs -> q = c) -> qsum qs == c * inject_Z (Z.of_nat (length qs)).
Proof.
  induction qs as [|q qs IH]; intros H.
  - simpl. change (inject_Z 0) with 0. lra.
  - cbn [qsum fold_right length]. fold (qsum qs).
    rewrite IH by (intros; apply H; now right).
    rewrite (H q) by now left.
    rewrite Nat2Z.inj_succ, <- Z.add_1_r, inject_Z_plus. change (inject_Z 1) with 1. ring.
Qed.

Lemma tail_window_incl {A} (w : nat) (l : list A) (x : A) :
  In x (tail_window w l) -> In x l.
Proof.
  unfold tail_window. intros H. rewrite <- (firstn_skipn (length l - w) l).
  apply in_or_app. now right.
Qed.

(** The average of a constant column is the constant. *)
Lemma constant_mean (w : nat) (c : Q) (qs : list Q) :
  (1 <= w)%nat -> (w <= length qs)%nat -> (forall q, In q qs -> q = c) ->
  exists m, rolling_mean_at w (map Num qs) = Num m /\ m == c.
Proof.
  intros H1 H2 Hc. rewrite rolling_mean_at_Num by assumption.
  eexists. split; [reflexivity|].
  rewrite (qsum_constant c).
  - rewrite tail_window_length by assumption.
    assert (0 < inject_Z (Z.of_nat w)).
    { change 0 with (inject_Z 0). rewrite <- Zlt_Qlt. lia. }
    field. lra.
  - intros q Hq. apply Hc. eapply tail_window_incl, Hq.
Qed.

Lemma constant_closes (c : Q) (window : list Candle) :
  (forall r, In r window -> close r = Num c) ->
  map close window = map Num (map (fun _ => c) window).
Proof.
  intros H. rewrite map_map. apply map_ext_in. exact H.
Qed.

Lemma flat_when_equal (self : TechnicalAnalyzer) (pre : list Candle) (last : Candle)
    (f s : Q) :
  last_ma (ma_fast self) (pre ++ [last]) = Num f ->
  last_ma (ma_slow self) (pre ++ [last]) = Num s ->
  f == s -> trend_of self (pre ++ [last]) = Ok flat.
Proof.
  intros Ef Es H. rewrite trend_of_snoc. cbv zeta. rewrite Ef, Es.
  unfold fgt. simpl.
  assert (Qltb s f = false) as -> by (apply Qltb_ge; lra).
  assert (Qltb f s = false) as -> by (apply Qltb_ge; lra).
  reflexivity.
Qed.

(** C9, as amended.  On every window with a most recent candle: when both
    averages are available the trend is [up] if the fast one is above the
    slow one, [down] if it is below, [flat] if they are equal, so that a
    constant close gives [flat]; when either average is missing, as it is
    on a window shorter than its period, the classification does not raise
    and is [flat]. *)
Theorem trend_rule (self : TechnicalAnalyzer) (pre : list Candle) (last : Candle) :
  let window := pre ++ [last] in
  let fast := last_ma (ma_fast self) window in
  let slow := last_ma (ma_slow self) window in
  (forall f s, fast = Num f -> slow = Num s ->
     (s < f -> trend_of self window = Ok up) /\
     (f < s -> trend_of self window = Ok down) /\
     (f == s -> trend_of self window = Ok flat)) /\
  (fast = NaN \/ slow = NaN -> trend_of self window = Ok flat) /\
  ((length window < ma_fast self)%nat \/ (length window < ma_slow self)%nat ->
     trend_of self window = Ok flat) /\
  (forall c, (forall r, In r window -> close r = Num c) ->
     (1 <= ma_fast self <= length window)%nat ->
     (1 <= ma_slow self <= length window)%nat ->
     trend_of self window = Ok flat).
Proof.
  intros window fast slow.
  assert (forall f s, fast = Num f -> slow = Num s -> f == s ->
          trend_of self window = Ok flat) as Heq
    by (intros f s; apply flat_when_equal).
  assert (fast = NaN \/ slow = NaN -> trend_of self window = Ok flat) as Hnan.
  { intros H. unfold window. rewrite trend_of_snoc. cbv zeta.
    fold window. fold fast. fold slow. unfold fgt.
    destruct H as [-> | ->]; rewrite ?flt_NaN_l, ?flt_NaN_r; reflexivity. }
  split; [|split; [exact Hnan|split]].
  - intros f s Ef Es. repeat split; intros H.
    + unfold window. rewrite trend_of_snoc. cbv zeta.
      fold window. fold fast. fold slow. rewrite Ef, Es. unfold fgt. simpl.
      apply Qltb_lt in H. now rewrite H.
    + unfold window. rewrite trend_of_snoc. cbv zeta.
      fold window. fold fast. fold slow. rewrite Ef, Es. unfold fgt. simpl.
      assert (Qltb s f = false) as -> by (apply Qltb_ge; lra).
      apply Qltb_lt in H. now rewrite H.
    + now apply (Heq f s).
  - intros [H|H]; apply Hnan; [left|right]; now apply last_ma_short.
  - intros c Hc Hf Hs.
    assert (forall q, In q (map (fun _ : Candle => c) window) -> q = c) as Hall.
    { intros q Hq. apply in_map_iff in Hq. now destruct Hq as (_ & <- & _). }
    destruct (constant_mean (ma_fast self) c (map (fun _ => c) window))
      as (f & Ef & Hfc); [lia | rewrite length_map; lia | exact Hall |].
    destruct (constant_mean (ma_slow self) c (map (fun _ => c) window))
      as (s & Es & Hsc); [lia | rewrite length_map; lia | exact Hall |].
    apply (Heq f s).
    + unfold fast, last_ma. now rewrite (constant_closes c window Hc).
    + unfold slow, last_ma. now rewrite (constant_closes c window Hc).
    + lra.
Qed.

Lemma trend_rule_witness :
  let self := {| ma_fast := 1; ma_slow := 2; volume_period := 2 |} in
  let window := [candle 7 8 6 7 10; candle 7 9 5 7 20] ++ [candle 7 7 7 7 30] in
  (forall r, In r window -> close r = Num 7) /\
  trend_of self window = Ok flat.
Proof.
  intros self window.
  assert (forall r, In r window -> close r = Num 7) as Hc
    by (intros r [<-|[<-|[<-|[]]]]; reflexivity).
  split; [exact Hc|].
  destruct (trend_rule self [candle 7 8 6 7 10; candle 7 9 5 7 20]
              (candle 7 7 7 7 30)) as (_ & _ & _ & H).
  apply (H 7 Hc); simpl; lia.
Defined.

(** C9 as worded fails on the window without candles: it is shorter than
    any slow period, and the classification raises. *)
Lemma short_window_is_flat_fails :
  ~ short_window_is_flat {| ma_fast := 5; ma_slow := 20; volume_period := 20 |} [].
Proof.
  intros H. assert (trend_of {| ma_fast := 5; ma_slow := 20; volume_period := 20 |} []
                    = Ok flat) as E by (apply H; simpl; lia).
  discriminate E.
Qed.

(** [detect_trend] alone raises as well on a frame without rows, whether
    the average columns are there or not. *)
Lemma detect_trend_no_rows (fast slow : option (list float)) :
  detect_trend {| rows := []; MA_fast := fast; MA_slow := slow |} = Raise IndexError.
Proof. reflexivity. Qed.

(** ** A rising close *)

Lemma rising_tail (q : Q) (qs : list Q) : rising (q :: qs) = true -> rising qs = true.
Proof.
  destruct qs as [|q' qs]; [reflexivity|].
  cbn [rising]. now intros [_ H]%andb_true_iff.
Qed.

Lemma rising_head_lt (qs : list Q) :
  forall q, rising (q :: qs) = true -> forall x, In x qs -> q < x.
Proof.
  induction qs as [|q' qs IH]; intros q H x Hx; [destruct Hx|].
  cbn [rising] in H. apply andb_true_iff in H. destruct H as [Hlt Hr].
  apply Qltb_lt in Hlt. destruct Hx as [<-|Hx]; [exact Hlt|].
  specialize (IH q' Hr x Hx). lra.
Qed.

Lemma rising_app_r (front back : list Q) :
  rising (front ++ back) = true -> rising back = true.
Proof.
  induction front as [|a front IH]; [trivial|].
  intros H. apply IH. exact (rising_tail a _ H).
Qed.

Lemma rising_app_lt (front back : list Q) :
  rising (front ++ back) = true ->
  forall a b, In a front -> In b back -> a < b.
Proof.
  induction front as [|x front IH]; intros H a b Ha Hb; [destruct Ha|].
  destruct Ha as [<-|Ha].
  - apply (rising_head_lt (front ++ back) x H). apply in_or_app. now right.
  - apply IH; try assumption. exact (rising_tail x _ H).
Qed.

Lemma inject_length_cons {A} (x : A) (l : list A) :
  inject_Z (Z.of_nat (length (x :: l))) == inject_Z (Z.of_nat (length l)) + 1.
Proof.
  cbn [length]. rewrite Nat2Z.inj_succ, <- Z.add_1_r, inject_Z_plus. reflexivity.
Qed.

Lemma inject_length_nonneg {A} (l : list A) : 0 <= inject_Z (Z.of_nat (length l)).
Proof. change 0 with (inject_Z 0). rewrite <- Zle_Qle. lia. Qed.

Lemma qsum_app (l1 l2 : list Q) : qsum (l1 ++ l2) == qsum l1 + qsum l2.
Proof.
  induction l1 as [|q l1 IH]; simpl.
  - lra.
  - fold (qsum (l1 ++ l2)). fold (qsum l1). rewrite IH. lra.
Qed.

Lemma qsum_le_above (x : Q) (l : list Q) :
  (forall a, In a l -> a <= x) -> qsum l <= x * inject_Z (Z.of_nat (length l)).
Proof.
  induction l as [|a l IH]; intros H.
  - simpl. change (inject_Z 0) with 0. lra.
  - rewrite inject_length_cons. cbn [qsum fold_right]. fold (qsum l).
    assert (a <= x) by (apply H; now left).
    assert (qsum l <= x * inject_Z (Z.of_nat (length l)))
      by (apply IH; intros; apply H; now right).
    rewrite Qmult_plus_distr_r. lra.
Qed.

Lemma qsum_lt_above (x : Q) (l : list Q) :
  l <> [] -> (forall a, In a l -> a < x) ->
  qsum l < x * inject_Z (Z.of_nat (length l)).
Proof.
  destruct l as [|a l]; [congruence|]. intros _ H.
  rewrite inject_length_cons. cbn [qsum fold_right]. fold (qsum l).
  assert (a < x) by (apply H; now left).
  assert (qsum l <= x * inject_Z (Z.of_nat (length l))).
  { apply qsum_le_above. intros b Hb. apply Qlt_le_weak, H. now right. }
  rewrite Qmult_plus_distr_r. lra.
Qed.

Lemma qsum_ge_below (x : Q) (l : list Q) :
  (forall b, In b l -> x <= b) -> x * inject_Z (Z.of_nat (length l)) <= qsum l.
Proof.
  induction l as [|b l IH]; intros H.
  - simpl. change (inject_Z 0) with 0. lra.
  - rewrite inject_length_cons. cbn [qsum fold_right]. fold (qsum l).
    assert (x <= b) by (apply H; now left).
    assert (x * inject_Z (Z.of_nat (length l)) <= qsum l)
      by (apply IH; intros; apply H; now right).
    rewrite Qmult_plus_distr_r. lra.
Qed.

(** In a rising list, the later part weighs more than the earlier one. *)
Lemma rising_sums (front back : list Q) :
  front <> [] -> back <> [] -> rising (front ++ back) = true ->
  qsum front * inject_Z (Z.of_nat (length back))
  < qsum back * inject_Z (Z.of_nat (length front)).
Proof.
  intros Hf Hb H. destruct back as [|b0 back]; [congruence|].
  set (B := b0 :: back) in *.
  assert (qsum front < b0 * inject_Z (Z.of_nat (length front))) as H1.
  { apply qsum_lt_above; [assumption|]. intros a Ha.
    apply (rising_app_lt front B H a b0 Ha). now left. }
  assert (b0 * inject_Z (Z.of_nat (length B)) <= qsum B) as H2.
  { apply qsum_ge_below. intros b [<-|Hb']; [lra|].
    apply Qlt_le_weak.
    apply (rising_head_lt back b0 (rising_app_r front B H) b Hb'). }
  assert (0 < inject_Z (Z.of_nat (length B))) as HB.
  { change 0 with (inject_Z 0). rewrite <- Zlt_Qlt. unfold B. cbn [length]. lia. }
  assert (0 < inject_Z (Z.of_nat (length front))) as HF.
  { change 0 with (inject_Z 0). rewrite <- Zlt_Qlt.
    destruct front; [congruence|]. cbn [length]. lia. }
  apply Qlt_le_trans with
    (b0 * inject_Z (Z.of_nat (length front)) * inject_Z (Z.of_nat (length B))).
  - now apply Qmult_lt_compat_r.
  - setoid_replace
      (b0 * inject_Z (Z.of_nat (length front)) * inject_Z (Z.of_nat (length B)))
      with (b0 * inject_Z (Z.of_nat (length B)) * inject_Z (Z.of_nat (length front)))
      by ring.
    apply Qmult_le_compat_r; [exact H2 | lra].
Qed.

Lemma Qdiv_lt_cross (a b c d : Q) :
  0 < b -> 0 < d -> a * d < c * b -> a / b < c / d.
Proof.
  intros Hb Hd H. apply Qlt_shift_div_r; [exact Hb|].
  setoid_replace (c / d * b) with (c * b / d) by (field; intros E; lra).
  apply Qlt_shift_div_l; assumption.
Qed.

Lemma tail_window_split {A} (wf ws : nat) (l : list A) :
  (wf <= ws <= length l)%nat ->
  tail_window ws l = firstn (ws - wf) (tail_window ws l) ++ tail_window wf l.
Proof.
  intros H. rewrite <- (firstn_skipn (ws - wf) (tail_window ws l)) at 1.
  f_equal. unfold tail_window. rewrite skipn_skipn. f_equal. lia.
Qed.

(** On a rising column the shorter average is above the longer one. *)
Lemma rising_means (wf ws : nat) (qs : list Q) :
  (1 <= wf)%nat -> (wf < ws)%nat -> (ws <= length qs)%nat -> rising qs = true ->
  qsum (tail_window ws qs) / inject_Z (Z.of_nat ws)
  < qsum (tail_window wf qs) / inject_Z (Z.of_nat wf).
Proof.
  intros H1 H2 H3 Hr.
  set (front := firstn (ws - wf) (tail_window ws qs)).
  set (back := tail_window wf qs).
  assert (tail_window ws qs = front ++ back) as Esplit
    by (apply tail_window_split; lia).
  assert (length back = wf) as Lb by (apply tail_window_length; lia).
  assert (length front = (ws - wf)%nat) as Lf.
  { unfold front. rewrite length_firstn, tail_window_length by lia. lia. }
  assert (rising (front ++ back) = true) as Hr'.
  { rewrite <- Esplit. unfold tail_window.
    apply (rising_app_r (firstn (length qs - ws) qs)).
    now rewrite firstn_skipn. }
  assert (front <> []) as Nf by (intros E; rewrite E in Lf; simpl in Lf; lia).
  assert (back <> []) as Nb by (intros E; rewrite E in Lb; simpl in Lb; lia).
  pose proof (rising_sums front back Nf Nb Hr') as Hs.
  rewrite Lb, Lf in Hs. rewrite Esplit.
  assert (inject_Z (Z.of_nat (ws - wf))
          == inject_Z (Z.of_nat ws) - inject_Z (Z.of_nat wf)) as Einj.
  { rewrite Nat2Z.inj_sub by lia. unfold Z.sub.
    rewrite inject_Z_plus, inject_Z_opp. reflexivity. }
  rewrite Einj in Hs.
  assert (0 < inject_Z (Z.of_nat wf)) as Pf
    by (change 0 with (inject_Z 0); rewrite <- Zlt_Qlt; lia).
  assert (0 < inject_Z (Z.of_nat ws)) as Ps
    by (change 0 with (inject_Z 0); rewrite <- Zlt_Qlt; lia).
  apply Qdiv_lt_cross; try assumption.
  rewrite qsum_app. fold back.
  rewrite Qmult_plus_distr_l.
  setoid_replace (qsum back * (inject_Z (Z.of_nat ws) - inject_Z (Z.of_nat wf)))
    with (qsum back * inject_Z (Z.of_nat ws) - qsum back * inject_Z (Z.of_nat wf))
    in Hs by ring.
  lra.
Qed.

(** A rising close gives an upward trend as soon as the fast period is the
    shorter one and the window holds a whole slow period. *)
Lemma rising_close_trend_up (self : TechnicalAnalyzer) (window : list Candle)
    (qs : list Q) :
  map close window = map Num qs -> rising qs = true ->
  (1 <= ma_fast self)%nat -> (ma_fast self < ma_slow self)%nat ->
  (ma_slow self <= length window)%nat ->
  trend_of self window = Ok up.
Proof.
  intros Hc Hr H1 H2 H3.
  assert (length qs = length window) as Hl
    by (rewrite <- (length_map Num qs), <- Hc; apply length_map).
  destruct (nonempty_snoc window) as (pre & last & E).
  { intros E. rewrite E in H3. simpl in H3. lia. }
  rewrite E, trend_of_snoc. cbv zeta. rewrite <- E. unfold last_ma. rewrite Hc.
  rewrite !rolling_mean_at_Num by lia.
  unfold fgt. cbn [flt].
  assert (Qltb (qsum (tail_window (ma_slow self) qs) / inject_Z (Z.of_nat (ma_slow self)))
               (qsum (tail_window (ma_fast self) qs) / inject_Z (Z.of_nat (ma_fast self)))
          = true) as ->; [|reflexivity].
  apply Qltb_lt. apply rising_means; solve [lia | assumption].
Qed.

Lemma Qltb_compat_r (z x y : Q) : x == y -> Qltb z x = Qltb z y.
Proof.
  intros E. destruct (Qltb z y) eqn:H.
  - apply Qltb_lt. apply Qltb_lt in H. lra.
  - apply Qltb_ge. apply Qltb_ge in H. lra.
Qed.

Lemma fgt_compat_l (x y : Q) (r : float) : x == y -> fgt (Num x) r = fgt (Num y) r.
Proof.
  intros E. destruct r as [r|]; [|reflexivity]. unfold fgt. simpl.
  now apply Qltb_compat_r.
Qed.

Lemma last_close_of_scenario (pre : list Candle) (last : Candle) (qs : list Q) :
  rising_scenario (pre ++ [last]) qs ->
  exists q, close last = Num q /\ q == 160.
Proof.
  intros (Hlen & Hc & _ & _ & H160).
  rewrite length_app in Hlen. simpl in Hlen.
  assert (length pre = 59%nat) as Lp by lia.
  assert (length qs = 60%nat) as Lq.
  { rewrite <- (length_map Num qs), <- Hc, length_map, length_app. simpl. lia. }
  exists (nth 59 qs 0). split; [|exact H160].
  assert (nth 59 (map close (pre ++ [last])) NaN = close last) as <-.
  { rewrite map_app, app_nth2 by (rewrite length_map; lia).
    rewrite length_map, Lp. reflexivity. }
  rewrite Hc. rewrite (nth_indep _ NaN (Num 0)) by (rewrite length_map; lia).
  apply map_nth.
Qed.

(** C1, as amended.  On 60 candles whose close rises from 100 to 160, read
    with periods 5 and 20, the trend is [up]; the breakout is [breakout_up],
    and the direction [call], exactly when the last close, 160, is strictly
    above the greatest high of the whole window, the last candle included;
    when no candle closes above its own high the breakout is not
    [breakout_up] and no direction is inferred. *)
Theorem rising_scenario_outcome (window : list Candle) (qs : list Q) :
  rising_scenario window qs ->
  trend_of scenario_analyzer window = Ok up /\
  (detect_breakout (frame window) = Ok (Some breakout_up)
     <-> fgt (Num 160) (resistance window) = true) /\
  (direction_of scenario_analyzer window = Ok (Some Bot.call)
     <-> fgt (Num 160) (resistance window) = true) /\
  ((forall c, In c window -> fle (close c) (high c) = true) ->
     detect_breakout (frame window) <> Ok (Some breakout_up) /\
     direction_of scenario_analyzer window = Ok None).
Proof.
  intros Hs. pose proof Hs as (Hlen & Hc & Hr & _ & _).
  assert (trend_of scenario_analyzer window = Ok up) as Ht.
  { apply (rising_close_trend_up scenario_analyzer window qs Hc Hr);
      simpl; lia. }
  destruct (nonempty_snoc window) as (pre & last & E).
  { intros E. rewrite E in Hlen. discriminate Hlen. }
  subst window.
  destruct (last_close_of_scenario pre last qs Hs) as (q & Eq & Hq).
  pose proof (breakout_up_iff pre last) as Hup.
  rewrite Eq, (fgt_compat_l q 160 _ Hq) in Hup.
  assert (direction_of scenario_analyzer (pre ++ [last]) = Ok (Some Bot.call)
          <-> fgt (Num 160) (resistance (pre ++ [last])) = true) as Hdir.
  { rewrite <- Hup. unfold direction_of. rewrite Ht.
    destruct (detect_breakout (frame (pre ++ [last]))) as [[[|]|]|e]; simpl;
      split; intros H; try discriminate H; reflexivity. }
  split; [exact Ht|]. split; [exact Hup|]. split; [exact Hdir|].
  intros Hwf.
  assert (fgt (Num 160) (resistance (pre ++ [last])) = false) as Hno.
  { assert (In last (pre ++ [last])) as Hin by (apply in_or_app; right; now left).
    apply Hwf, fle_Num in Hin. destruct Hin as (c & h & Ec & Eh & Hch).
    rewrite Eq in Ec. inversion Ec; subst c.
    destruct (maximum_bounds (map high (pre ++ [last])) h) as (r & Er & Hr').
    { rewrite <- Eh. apply in_map, in_or_app. right. now left. }
    unfold resistance. rewrite Er. unfold fgt. simpl. apply Qltb_ge. lra. }
  split.
  - intros H. apply Hup in H. congruence.
  - unfold direction_of. rewrite Ht.
    destruct (detect_breakout (frame (pre ++ [last]))) as [[[|]|]|e] eqn:Eb;
      simpl; try reflexivity.
    + assert (fgt (Num 160) (resistance (pre ++ [last])) = true) by now apply Hup.
      congruence.
    + rewrite detect_breakout_snoc in Eb. cbv zeta in Eb.
      destruct (fgt (close last) (series_max (map high (pre ++ [last]))));
        [discriminate|].
      destruct (flt (close last) (series_min (map low (pre ++ [last]))));
        discriminate.
Qed.

Lemma scenario_window_is_rising :
  rising_scenario scenario_window (map scenario_close (seq 0 60)).
Proof.
  unfold rising_scenario. repeat split; try (vm_compute; reflexivity).
Qed.

(** C1 as worded fails on [scenario_window], where every candle closes
    inside its own range: the trend is [up], but there is no breakout and
    no direction. *)
Lemma scenario_outcome_as_claimed_fails :
  rising_scenario scenario_window (map scenario_close (seq 0 60)) /\
  ~ scenario_outcome_as_claimed scenario_window.
Proof.
  split; [exact scenario_window_is_rising|].
  intros (_ & Hb & _).
  assert (detect_breakout (frame scenario_window) = Ok None) as E
    by (vm_compute; reflexivity).
  rewrite E in Hb. discriminate Hb.
Qed.

Lemma rising_scenario_outcome_witness :
  rising_scenario scenario_window (map scenario_close (seq 0 60)) /\
  trend_of scenario_analyzer scenario_window = Ok up.
Proof.
  split; [exact scenario_window_is_rising|].
  apply (rising_scenario_outcome scenario_window (map scenario_close (seq 0 60))).
  unfold rising_scenario. repeat split; vm_compute; reflexivity.
Defined.

(** * Volume ratio *)

Lemma volume_ratio_snoc (config : Bot.Config) (pre : list Candle) (last : Candle) :
  let window := pre ++ [last] in
  Bot.volume_ratio config (frame window) last =
    if fgt (avg_volume config window) (Num 0)
    then fdiv (volume last) (avg_volume config window)
    else Ok (Num 0).
Proof.
  intros window. unfold Bot.volume_ratio, window.
  rewrite column_snoc. cbn [rbind]. rewrite map_app. cbn [map].
  rewrite rolling_mean_last. cbn [rbind]. unfold avg_volume.
  rewrite map_app. reflexivity.
Qed.

Lemma window_sum_last (win : list float) (x : float) (s : Q) :
  window_sum (win ++ [x]) = Some s -> exists v, x = Num v.
Proof.
  revert s. induction win as [|a win IH]; intros s; simpl.
  - destruct x as [v|]; [intros _; now exists v | discriminate].
  - destruct a; [|discriminate].
    destruct (window_sum (win ++ [x])) as [s'|] eqn:E; [|discriminate].
    intros _. now apply (IH s').
Qed.

Lemma tail_window_snoc {A} (w : nat) (l : list A) (x : A) :
  (1 <= w)%nat -> tail_window w (l ++ [x]) = tail_window (w - 1) l ++ [x].
Proof.
  intros H. unfold tail_window. rewrite length_app. cbn [length].
  rewrite skipn_app.
  replace (length l + 1 - w)%nat with (length l - (w - 1))%nat by lia.
  replace (length l - (w - 1) - length l)%nat with 0%nat by lia.
  reflexivity.
Qed.

(** An average that is available covers the last row, which therefore holds
    a number. *)
Lemma available_mean_covers_last (w : nat) (col : list float) (x : float) (a : Q) :
  rolling_mean_at w (col ++ [x]) = Num a -> exists v, x = Num v.
Proof.
  unfold rolling_mean_at. destruct (w =? 0)%nat eqn:E0; [discriminate|].
  destruct (length (col ++ [x]) <? w)%nat; [discriminate|]. simpl.
  apply Nat.eqb_neq in E0. rewrite tail_window_snoc by lia.
  destruct (window_sum (tail_window (w - 1) col ++ [x])) as [s|] eqn:E;
    [|discriminate].
  intros _. exact (window_sum_last _ _ _ E).
Qed.

(** The ratio is always a number, and not a negative one when the last
    volume is not. *)
Lemma volume_ratio_total (config : Bot.Config) (pre : list Candle) (last : Candle) :
  exists v,
    Bot.volume_ratio config (frame (pre ++ [last])) last = Ok (Num v) /\
    (flt (volume last) (Num 0) = false -> 0 <= v).
Proof.
  rewrite volume_ratio_snoc. cbv zeta.
  destruct (avg_volume config (pre ++ [last])) as [a|] eqn:Ea.
  - unfold fgt. cbn [flt]. destruct (Qltb 0 a) eqn:Hpos.
    + apply Qltb_lt in Hpos.
      assert (exists x, volume last = Num x) as (x & Ex).
      { unfold avg_volume in Ea. rewrite map_app in Ea.
        exact (available_mean_covers_last _ _ _ _ Ea). }
      rewrite Ex. cbn [fdiv].
      assert (Qeq_bool a 0 = false) as Hz.
      { apply not_true_iff_false. rewrite Qeq_bool_iff. lra. }
      rewrite Hz. exists (x / a). split; [reflexivity|].
      cbn [flt]. intros Hx. apply Qltb_ge in Hx.
      apply Qle_shift_div_l; [exact Hpos | lra].
    + exists 0. split; [reflexivity | intros _; lra].
  - exists 0. split; [reflexivity | intros _; lra].
Qed.

(** C8, as amended.  On every window with a most recent candle the volume
    ratio is computed without raising, without dividing by zero, and is a
    number, never a missing value; it is exactly 0 when the average volume
    is zero or missing, as on a window shorter than the period; and it is
    not negative provided the most recent volume is not negative. *)
Theorem volume_ratio_rule (config : Bot.Config) (pre : list Candle) (last : Candle) :
  let window := pre ++ [last] in
  let ratio := Bot.volume_ratio config (frame window) last in
  (exists q, ratio = Ok (Num q)) /\
  (avg_volume config window = NaN -> ratio = Ok (Num 0)) /\
  (forall a, avg_volume config window = Num a -> a == 0 -> ratio = Ok (Num 0)) /\
  ((length window < Bot.cfg_volume_period config)%nat -> ratio = Ok (Num 0)) /\
  (flt (volume last) (Num 0) = false -> volume_ratio_not_negative config window last).
Proof.
  intros window ratio. unfold volume_ratio_not_negative. fold ratio.
  assert (ratio = if fgt (avg_volume config window) (Num 0)
                  then fdiv (volume last) (avg_volume config window)
                  else Ok (Num 0)) as E by apply volume_ratio_snoc.
  assert (avg_volume config window = NaN -> ratio = Ok (Num 0)) as Hnan.
  { intros H. rewrite E, H. reflexivity. }
  destruct (volume_ratio_total config pre last) as (v & Ev & Hv).
  fold window in Ev. fold ratio in Ev.
  split; [now exists v|]. split; [exact Hnan|]. split; [|split].
  - intros a Ha Hz. rewrite E, Ha. unfold fgt. cbn [flt].
    assert (Qltb 0 a = false) as -> by (apply Qltb_ge; lra). reflexivity.
  - intros Hshort. apply Hnan. unfold avg_volume, rolling_mean_at.
    rewrite length_map. apply Nat.ltb_lt in Hshort.
    now rewrite Hshort, orb_true_r.
  - intros Hx. exists v. split; [exact Ev | now apply Hv].
Qed.

(** C8 as worded fails on [negative_volume_window]: the average volume over
    two candles is 1, and the ratio is -1. *)
Lemma volume_ratio_not_negative_fails :
  ~ volume_ratio_not_negative small_config negative_volume_window
      (candle 1 1 1 1 (-1)).
Proof.
  intros (q & E & Hq).
  assert (Bot.volume_ratio small_config (frame negative_volume_window)
            (candle 1 1 1 1 (-1)) = Ok (Num (-1 / ((3 + (-1 + 0)) / 2)))) as E'
    by reflexivity.
  rewrite E' in E. inversion E; subst q.
  revert Hq. vm_compute. intros H. now apply H.
Qed.

Lemma volume_ratio_rule_witness :
  flt (volume (candle 1 1 1 1 3)) (Num 0) = false /\
  volume_ratio_not_negative small_config [candle 1 1 1 1 1; candle 1 1 1 1 3]
    (candle 1 1 1 1 3).
Proof.
  split; [reflexivity|].
  apply (volume_ratio_rule small_config [candle 1 1 1 1 1] (candle 1 1 1 1 3)).
  reflexivity.
Defined.

(** * Lookback levels *)

Lemma rolling_extreme_covers_last (step : float -> float -> float) (w : nat)
    (col : list float) (x : float) (r : Q) :
  rolling_extreme_at step w (col ++ [x]) = Num r ->
  rolling_extreme_at step w (col ++ [x])
    = fold_left step (tail_window (w - 1) col ++ [x]) NaN.
Proof.
  unfold rolling_extreme_at. destruct (w =? 0)%nat eqn:E0; [discriminate|].
  destruct (length (col ++ [x]) <? w)%nat; [discriminate|]. cbn [orb].
  apply Nat.eqb_neq in E0. rewrite tail_window_snoc by lia.
  now destruct (existsb is_nan (tail_window (w - 1) col ++ [x])).
Qed.

(** X8.  [support_resistance] is inclusive in the same way as
    [detect_breakout]: when both levels are numbers, the support is not
    above the last candle's own low and the resistance not below its own
    high. *)
Lemma support_resistance_includes_last (pre : list Candle) (last : Candle)
    (lookback : nat) (s r l h : Q) :
  support_resistance (frame (pre ++ [last])) lookback = Ok (Num s, Num r) ->
  low last = Num l -> high last = Num h ->
  s <= l /\ h <= r.
Proof.
  unfold support_resistance. rewrite !column_snoc. cbn [rbind].
  rewrite !map_app. cbn [map]. rewrite !rolling_last. cbn [rbind].
  intros E Hl Hh. inversion E as [[Es Er]]. split.
  - rewrite (rolling_extreme_covers_last _ _ _ _ s Es) in Es.
    destruct (minimum_bounds (tail_window (lookback - 1) (map low pre) ++ [low last]) l)
      as (m & Em & Hm).
    { rewrite Hl. apply in_or_app. right. now left. }
    unfold series_min in Em. rewrite Em in Es. inversion Es; subst. exact Hm.
  - rewrite (rolling_extreme_covers_last _ _ _ _ r Er) in Er.
    destruct (maximum_bounds (tail_window (lookback - 1) (map high pre) ++ [high last]) h)
      as (m & Em & Hm).
    { rewrite Hh. apply in_or_app. right. now left. }
    unfold series_max in Em. rewrite Em in Er. inversion Er; subst. exact Hm.
Qed.

(** * The scan of one instrument *)

Lemma detect_breakout_rows (df : DataFrame) :
  detect_breakout df = detect_breakout (frame (rows df)).
Proof. reflexivity. Qed.

Lemma volume_ratio_rows (config : Bot.Config) (df : DataFrame) (c : Candle) :
  Bot.volume_ratio config df c = Bot.volume_ratio config (frame (rows df)) c.
Proof. reflexivity. Qed.

Lemma trend_of_total (self : TechnicalAnalyzer) (pre : list Candle) (last : Candle) :
  exists t, trend_of self (pre ++ [last]) = Ok t.
Proof.
  rewrite trend_of_snoc. cbv zeta.
  destruct (fgt _ _); [now exists up|].
  destruct (flt _ _); [now exists down | now exists flat].
Qed.

Lemma detect_breakout_total (pre : list Candle) (last : Candle) :
  exists b, detect_breakout (frame (pre ++ [last])) = Ok b.
Proof.
  rewrite detect_breakout_snoc. cbv zeta.
  destruct (fgt _ _); [now eexists|].
  destruct (flt _ _); now eexists.
Qed.

(** A frame with a last row is always analysed: nothing raises, and the
    signal is the breakout and the trend of the window. *)
Lemma analyse_snoc (env : Bot.Env) (config : Bot.Config) (payout : Q)
    (pre : list Candle) (last : Candle) :
  let window := pre ++ [last] in
  exists b t f,
    Bot.analyse env config payout (frame window) = Ok (b, t, f) /\
    detect_breakout (frame window) = Ok b /\
    trend_of (Bot.technical config) window = Ok t /\
    Bot.f_breakout f = b /\ Bot.f_trend f = t.
Proof.
  intros window.
  destruct (detect_breakout_total pre last) as (b & Eb).
  destruct (trend_of_total (Bot.technical config) pre last) as (t & Et).
  destruct (volume_ratio_total config pre last) as (q & Eq & _).
  fold window in Eb, Et, Eq.
  exists b, t. unfold Bot.analyse. pose proof Et as Et'. unfold trend_of in Et'.
  destruct (calculate_moving_averages (Bot.technical config) (frame window))
    as [df|e] eqn:Ec; [|discriminate Et'].
  assert (rows df = window) as Er.
  { unfold calculate_moving_averages in Ec.
    destruct (column close "close" (frame window)); [|discriminate Ec].
    simpl in Ec. inversion Ec. reflexivity. }
  cbn [rbind] in *. rewrite detect_breakout_rows, Er, Eb. cbn [rbind].
  rewrite Et'. cbn [rbind]. unfold window at 1.
  rewrite iloc_last_app. cbn [rbind].
  rewrite volume_ratio_rows, Er, Eq. cbn [rbind].
  eexists. repeat split; try reflexivity; assumption.
Qed.

Lemma analyse_empty (env : Bot.Env) (config : Bot.Config) (payout : Q) :
  Bot.analyse env config payout (frame []) = Raise (KeyError "close").
Proof. reflexivity. Qed.

(** * Orders *)

Ltac step_bot :=
  unfold Bot.bind, Bot.try_except, Bot.log, Bot.emit, Bot.ret, Bot.call_with, Bot.lift;
  cbn beta iota zeta.

Lemma place_order_total (env : Bot.Env) (a : Bot.asset) (d : Bot.Direction)
    (f : Bot.Features) (payout : Q) (wins : Z) (h : Bot.History) :
  exists (won : bool) (delta : list Bot.Event),
    Bot.place_order env a d f payout wins h
      = (Ok (if won then (wins + 1)%Z else wins), h ++ delta) /\
    count_wins delta = (if won then 1 else 0)%Z /\
    In (Bot.EvRegisterTrade a won) delta.
Proof.
  unfold Bot.place_order. step_bot.
  destruct (Bot.buy env _ _ _ _ _) as [[status order_id]|e]; step_bot.
  - destruct (Bot.check_win env _ _) as [[won profit]|e]; step_bot.
    + exists won. eexists. rewrite <- !app_assoc. split; [reflexivity|].
      destruct won; simpl; auto 10.
    + exists false. eexists. rewrite <- !app_assoc. split; [reflexivity|].
      simpl; auto 10.
  - exists false. eexists. rewrite <- !app_assoc. split; [reflexivity|].
    simpl; auto 10.
Qed.



Lemma count_wins_app (t1 t2 : list Bot.Event) :
  count_wins (t1 ++ t2) = (count_wins t1 + count_wins t2)%Z.
Proof.
  induction t1 as [|e t1 IH]; [reflexivity|].
  destruct e; cbn [app count_wins]; try exact IH.
  destruct won; lia.
Qed.

Lemma count_wins_nonneg (t : list Bot.Event) : (0 <= count_wins t)%Z.
Proof.
  induction t as [|e t IH]; [reflexivity|].
  destruct e; cbn [count_wins]; try exact IH. destruct won; lia.
Qed.

(** These checks never raise; they win what the trace books as won, and send
    an order only in the direction breakout and trend agree on. *)
Lemma trade_on_signal_total (env : Bot.Env) (a : Bot.asset) (payout : Q)
    (b : option Breakout) (t : Trend) (f : Bot.Features) (wins : Z)
    (h : Bot.History) :
  exists (w : Z) (delta : list Bot.Event),
    Bot.trade_on_signal env a payout b t f wins h = (Ok w, h ++ delta) /\
    w = (wins + count_wins delta)%Z /\
    (b = None -> delta = []) /\
    (forall amount a' d, In (Bot.EvBuy amount a' d) delta ->
       Bot.infer_direction b t = Some d).
Proof.
  unfold Bot.trade_on_signal. destruct b as [b|].
  2:{ exists wins, []. step_bot. rewrite app_nil_r. cbn [count_wins].
      repeat split; try reflexivity; try lia. intros ? ? ? []. }
  step_bot. destruct (Bot.can_trade env h a).
  2:{ exists wins. eexists. split; [reflexivity|]. cbn [count_wins].
      repeat split; try lia; try discriminate.
      intros ? ? ? [E|[]]; discriminate E. }
  destruct (Bot.infer_direction (Some b) t) as [d|] eqn:Ed.
  2:{ exists wins. eexists. step_bot. split; [reflexivity|]. cbn [count_wins].
      repeat split; try lia; try discriminate.
      intros ? ? ? [E|[]]; discriminate E. }
  step_bot. destruct (Bot.predict_high_chance env _ f).
  2:{ exists wins. eexists. rewrite <- app_assoc. split; [reflexivity|].
      cbn [app count_wins]. repeat split; try lia; try discriminate.
      intros ? ? ? [E|[E|[]]]; discriminate E. }
  unfold Bot.place_order. step_bot.
  destruct (Bot.buy env _ _ _ _ _) as [[status order_id]|e];
    [destruct (Bot.check_win env _ _) as [[won' profit]|e]|];
    eexists; eexists; rewrite <- !app_assoc; cbn [app];
    (split; [reflexivity|]); cbn [count_wins fst snd];
    try (destruct won'); cbn [count_wins];
    (repeat split; try lia; try discriminate);
    intros ? ? ? Hin; cbn [In] in Hin;
    repeat (destruct Hin as [Hin|Hin]; try discriminate Hin);
    try (inversion Hin; reflexivity); try destruct Hin.
Qed.

(** * The scan *)

Lemma get_candles_df_run (env : Bot.Env) (a : Bot.asset) (tf n : Z) (h : Bot.History) :
  Bot.get_candles_df env a tf n h =
    (match Bot.get_candles env h a tf n with
     | Ok candles => Ok (frame (map Bot.rename candles))
     | Raise e => Raise e
     end, h ++ [Bot.EvGetCandles a tf n]).
Proof.
  unfold Bot.get_candles_df. now destruct (Bot.get_candles env h a tf n).
Qed.

(** An instrument outside the payout band is passed over without a call. *)
Lemma scan_asset_out_of_band (env : Bot.Env) (config : Bot.Config)
    (all_profit : list (Bot.asset * list (string * Q))) (a : Bot.asset)
    (wins : Z) (h : Bot.History) :
  payout_in_band config all_profit a = false ->
  Bot.scan_asset env config all_profit a wins h = (Ok wins, h).
Proof.
  unfold payout_in_band, Bot.scan_asset. cbv zeta.
  intros H%negb_false_iff. now rewrite H.
Qed.

(** A fetch that fails is logged, and the instrument is left for this turn. *)
Lemma scan_asset_fetch_fails (env : Bot.Env) (config : Bot.Config)
    (all_profit : list (Bot.asset * list (string * Q))) (a : Bot.asset)
    (wins : Z) (h : Bot.History) (e : Exn) :
  payout_in_band config all_profit a = true ->
  Bot.get_candles env h a (Bot.timeframe_main config) 100 = Raise e ->
  Bot.scan_asset env config all_profit a wins h
    = (Ok wins, h ++ [Bot.EvGetCandles a (Bot.timeframe_main config) 100;
                      Bot.EvLog Bot.error (Bot.MsgCandleError e)]).
Proof.
  unfold payout_in_band, Bot.scan_asset. cbv zeta.
  intros H%negb_true_iff Hf. rewrite H. step_bot.
  rewrite get_candles_df_run, Hf. step_bot. now rewrite <- app_assoc.
Qed.

(** A fetch that succeeds with no candle at all is the one case in which
    the scan of an instrument raises. *)
Lemma scan_asset_empty_frame (env : Bot.Env) (config : Bot.Config)
    (all_profit : list (Bot.asset * list (string * Q))) (a : Bot.asset)
    (wins : Z) (h : Bot.History) :
  payout_in_band config all_profit a = true ->
  Bot.get_candles env h a (Bot.timeframe_main config) 100 = Ok [] ->
  Bot.scan_asset env config all_profit a wins h
    = (Raise (KeyError "close"),
       h ++ [Bot.EvGetCandles a (Bot.timeframe_main config) 100]).
Proof.
  unfold payout_in_band, Bot.scan_asset. cbv zeta.
  intros H%negb_true_iff Hf. rewrite H. step_bot.
  rewrite get_candles_df_run, Hf. reflexivity.
Qed.

(** A fetched window with a last candle is analysed and handed to the checks. *)
Lemma scan_asset_fetched (env : Bot.Env) (config : Bot.Config)
    (all_profit : list (Bot.asset * list (string * Q))) (a : Bot.asset)
    (wins : Z) (h : Bot.History) (candles : list Bot.IQCandle)
    (pre : list Candle) (last : Candle) :
  payout_in_band config all_profit a = true ->
  Bot.get_candles env h a (Bot.timeframe_main config) 100 = Ok candles ->
  map Bot.rename candles = pre ++ [last] ->
  exists b t f,
    detect_breakout (frame (pre ++ [last])) = Ok b /\
    trend_of (Bot.technical config) (pre ++ [last]) = Ok t /\
    Bot.scan_asset env config all_profit a wins h
      = Bot.trade_on_signal env a
          (Bot.dict_get (Bot.dict_get all_profit a []) "turbo" 0) b t f wins
          (h ++ [Bot.EvGetCandles a (Bot.timeframe_main config) 100]).
Proof.
  unfold payout_in_band, Bot.scan_asset. cbv zeta.
  intros H%negb_true_iff Hf Hw. rewrite H. step_bot.
  rewrite get_candles_df_run, Hf, Hw.
  destruct (analyse_snoc env config
              (Bot.dict_get (Bot.dict_get all_profit a []) "turbo" 0) pre last)
    as (b & t & f & Ea & Eb & Et & _).
  cbv zeta in Ea. rewrite Ea. exists b, t, f. now repeat split.
Qed.

(** What the scan of one instrument comes to, in every case. *)
Lemma scan_asset_total (env : Bot.Env) (config : Bot.Config)
    (all_profit : list (Bot.asset * list (string * Q))) (a : Bot.asset)
    (wins : Z) (h : Bot.History) :
  exists (r : result Z) (delta : list Bot.Event),
    Bot.scan_asset env config all_profit a wins h = (r, h ++ delta) /\
    (forall w, r = Ok w -> w = (wins + count_wins delta)%Z) /\
    (forall e, r = Raise e ->
       Bot.get_candles env h a (Bot.timeframe_main config) 100 = Ok []) /\
    (payout_in_band config all_profit a = true ->
       In (Bot.EvGetCandles a (Bot.timeframe_main config) 100) delta).
Proof.
  destruct (payout_in_band config all_profit a) eqn:Hp.
  2:{ exists (Ok wins), []. rewrite app_nil_r.
      rewrite (scan_asset_out_of_band _ _ _ _ _ _ Hp). cbn [count_wins].
      repeat split; try discriminate. intros w E. inversion E. lia. }
  destruct (Bot.get_candles env h a (Bot.timeframe_main config) 100)
    as [candles|e] eqn:Hf.
  2:{ eexists. eexists.
      rewrite (scan_asset_fetch_fails _ _ _ _ _ _ _ Hp Hf).
      split; [reflexivity|]. cbn [count_wins].
      repeat split; try discriminate; [|intros _; now left].
      intros w E. inversion E. lia. }
  destruct (map Bot.rename candles) as [|c cs] eqn:Em.
  { destruct candles; [|discriminate Em]. eexists. eexists.
    rewrite (scan_asset_empty_frame _ _ _ _ _ _ Hp Hf).
    split; [reflexivity|]. repeat split; try discriminate.
    intros _. now left. }
  destruct (nonempty_snoc (c :: cs)) as (pre & last & Es); [discriminate|].
  rewrite Es in Em.
  destruct (scan_asset_fetched _ _ _ _ wins _ _ _ _ Hp Hf Em)
    as (b & t & f & _ & _ & E).
  destruct (trade_on_signal_total env a
              (Bot.dict_get (Bot.dict_get all_profit a []) "turbo" 0) b t f wins
              (h ++ [Bot.EvGetCandles a (Bot.timeframe_main config) 100]))
    as (w & delta & Et & Hw & _).
  exists (Ok w), (Bot.EvGetCandles a (Bot.timeframe_main config) 100 :: delta).
  rewrite E, Et, <- app_assoc. split; [reflexivity|].
  repeat split; try discriminate; [|intros _; now left].
  intros w' Ew. inversion Ew; subst w'. cbn [count_wins]. exact Hw.
Qed.

Lemma for_assets_total (env : Bot.Env) (config : Bot.Config)
    (all_profit : list (Bot.asset * list (string * Q))) (todo : list Bot.asset) :
  forall (wins : Z) (h : Bot.History),
  exists (r : result Z) (delta : list Bot.Event),
    Bot.for_assets env config all_profit todo wins h = (r, h ++ delta) /\
    (forall w, r = Ok w -> w = (wins + count_wins delta)%Z) /\
    (never_empty_window env config ->
       (exists w, r = Ok w) /\
       forall a, In a todo -> payout_in_band config all_profit a = true ->
         In (Bot.EvGetCandles a (Bot.timeframe_main config) 100) delta).
Proof.
  induction todo as [|a rest IH]; intros wins h.
  - exists (Ok wins), []. rewrite app_nil_r. split; [reflexivity|].
    cbn [count_wins]. split.
    + intros w E. inversion E. lia.
    + intros _. split; [now exists wins | intros a []].
  - cbn [Bot.for_assets]. unfold Bot.bind.
    destruct (scan_asset_total env config all_profit a wins h)
      as (r1 & d1 & E1 & Hw1 & Hraise & Hfetch).
    rewrite E1. destruct r1 as [w1|e].
    + destruct (IH w1 (h ++ d1)) as (r & d2 & E2 & Hw2 & Hall).
      exists r, (d1 ++ d2). rewrite E2, app_assoc. split; [reflexivity|].
      split.
      * intros w E. rewrite count_wins_app, (Hw2 w E), (Hw1 w1 eq_refl). lia.
      * intros Hne. destruct (Hall Hne) as [Hok Hin]. split; [exact Hok|].
        intros a' [<-|Ha'] Hp; apply in_or_app; [left|right]; auto.
    + exists (Raise e), d1. split; [reflexivity|]. split; [discriminate|].
      intros Hne. exfalso. exact (Hne h a (Hraise e eq_refl)).
Qed.



(** * The turns of the loop *)

Lemma rollover_wins (s : Bot.Session) (now : Z) :
  Bot.daily_wins (Bot.rollover s now)
    = if new_day s now then 0%Z else Bot.daily_wins s.
Proof.
  unfold Bot.rollover, new_day. cbn [Bot.daily_wins].
  now destruct (Bot.last_trade_date s).
Qed.

Lemma cycle_news (env : Bot.Env) (config : Bot.Config) (s : Bot.Session)
    (h : Bot.History) :
  news_reported env h = true ->
  Bot.cycle env config s h
    = (Ok s, h ++ turn_opening ++ [Bot.EvCheckHighImpactNews true;
                                   Bot.EvLog Bot.info Bot.MsgNewsWait;
                                   Bot.EvSleep 60]).
Proof.
  unfold news_reported, turn_opening. intros H.
  unfold Bot.cycle. step_bot. rewrite <- !app_assoc. cbn [app].
  rewrite H. step_bot. rewrite <- !app_assoc. reflexivity.
Qed.

Lemma cycle_daily_stop (env : Bot.Env) (config : Bot.Config) (s : Bot.Session)
    (h : Bot.History) :
  news_reported env h = false ->
  (Bot.stop_win_victories config
     <= Bot.daily_wins (Bot.rollover s (time_read env h)))%Z ->
  Bot.cycle env config s h
    = (Ok (Bot.rollover s (time_read env h)),
       h ++ turn_opening ++ [Bot.EvCheckHighImpactNews false;
                             Bot.EvNow (time_read env h);
                             Bot.EvLog Bot.info Bot.MsgDailyStopWin;
                             Bot.EvSleep 3600]).
Proof.
  unfold news_reported, time_read, turn_opening. intros H Hcap.
  unfold Bot.cycle. step_bot. rewrite <- !app_assoc. cbn [app].
  rewrite H. step_bot. rewrite <- !app_assoc. cbn [app] in *.
  apply Z.leb_le in Hcap. rewrite Hcap. step_bot.
  rewrite <- !app_assoc. reflexivity.
Qed.

Lemma cycle_running (env : Bot.Env) (config : Bot.Config) (s : Bot.Session)
    (h : Bot.History) :
  news_reported env h = false ->
  (Bot.daily_wins (Bot.rollover s (time_read env h))
     < Bot.stop_win_victories config)%Z ->
  let now := time_read env h in
  let h1 := h ++ turn_opening ++ [Bot.EvCheckHighImpactNews false; Bot.EvNow now] in
  let all_profit := Bot.get_all_profit env h1 in
  Bot.cycle env config s h
    = match Bot.for_assets env config all_profit (Bot.assets config)
              (Bot.daily_wins (Bot.rollover s now)) (h1 ++ [Bot.EvGetAllProfit]) with
      | (Ok wins, h2) =>
          (Ok {| Bot.daily_wins := wins; Bot.last_trade_date := Some now |},
           h2 ++ [Bot.EvLog Bot.info Bot.MsgNextCycle;
                  Bot.EvSleep (Bot.timeframe_main config)])
      | (Raise e, h2) => (Raise e, h2)
      end.
Proof.
  intros H Hcap now h1 all_profit.
  unfold news_reported, time_read, turn_opening in H, Hcap.
  unfold Bot.cycle. step_bot. rewrite <- !app_assoc. cbn [app].
  rewrite H. step_bot. rewrite <- !app_assoc. cbn [app] in *.
  apply Z.leb_gt in Hcap. rewrite Hcap. step_bot.
  unfold all_profit, h1, now, time_read, turn_opening.
  rewrite <- !app_assoc. cbn [app].
  destruct (Bot.for_assets env config _ _ _ _) as [[wins|e] h2]; step_bot;
    [|reflexivity].
  rewrite <- !app_assoc. reflexivity.
Qed.

(** * Properties of the loop *)

(** C4.  On every window, the direction is [call] iff the breakout is
    [breakout_up] and the trend [up], [put] iff the breakout is
    [breakout_down] and the trend [down], and there is none in every other
    case, so none when breakout and trend disagree; an order is only ever
    sent in the direction so inferred. *)
Theorem direction_rule (b : option Breakout) (t : Trend) :
  (Bot.infer_direction b t = Some Bot.call <-> b = Some breakout_up /\ t = up) /\
  (Bot.infer_direction b t = Some Bot.put <-> b = Some breakout_down /\ t = down) /\
  (Bot.infer_direction b t = None
     <-> ~ (b = Some breakout_up /\ t = up) /\ ~ (b = Some breakout_down /\ t = down)) /\
  Bot.infer_direction (Some breakout_up) down = None /\
  Bot.infer_direction (Some breakout_up) flat = None /\
  Bot.infer_direction (Some breakout_down) up = None /\
  Bot.infer_direction (Some breakout_down) flat = None /\
  (forall self window,
     detect_breakout (frame window) = Ok b -> trend_of self window = Ok t ->
     direction_of self window = Ok (Bot.infer_direction b t)) /\
  (forall env a payout f wins h,
   exists w delta,
     Bot.trade_on_signal env a payout b t f wins h = (Ok w, h ++ delta) /\
     forall amount a' d, In (Bot.EvBuy amount a' d) delta ->
       Bot.infer_direction b t = Some d).
Proof.
  repeat match goal with |- _ /\ _ => split end; try reflexivity.
  - destruct b as [[|]|], t; simpl; split;
      (intros [? ?] || intros ?); try discriminate; auto.
  - destruct b as [[|]|], t; simpl; split;
      (intros [? ?] || intros ?); try discriminate; auto.
  - destruct b as [[|]|], t; simpl; split; intros H;
      try discriminate; try reflexivity;
      try (split; intros [? ?]; discriminate);
      destruct H as [H1 H2]; exfalso; auto.
  - intros self window Hb Ht. unfold direction_of. now rewrite Hb, Ht.
  - intros env a payout f wins h.
    destruct (trade_on_signal_total env a payout b t f wins h)
      as (w & delta & E & _ & _ & H).
    now exists w, delta.
Qed.

Lemma direction_rule_witness :
  let window := map Bot.rename breaking_candles in
  detect_breakout (frame window) = Ok (Some breakout_up) /\
  trend_of (Bot.technical small_config) window = Ok up /\
  direction_of (Bot.technical small_config) window = Ok (Some Bot.call).
Proof.
  intros window. split; [reflexivity|]. split; [reflexivity|].
  destruct (direction_rule (Some breakout_up) up)
    as (_ & _ & _ & _ & _ & _ & _ & H & _).
  apply (H (Bot.technical small_config) window); reflexivity.
Defined.

Lemma forallb_last {A} (p : A -> bool) (pre : list A) (x : A) :
  forallb p (pre ++ [x]) = true -> p x = true.
Proof.
  rewrite forallb_app. cbn [forallb]. rewrite andb_true_r.
  now intros [_ H]%andb_true_iff.
Qed.

(** C2.  On every window in which every candle closes between its low and
    its high, [detect_breakout] reports no breakout, no direction is
    inferred, and the scan of the instrument sends no order and leaves the
    win count as it was. *)
Theorem well_formed_window_never_trades (window : list Candle) :
  forallb well_formed window = true ->
  (window <> [] -> detect_breakout (frame window) = Ok None) /\
  (forall b, detect_breakout (frame window) <> Ok (Some b)) /\
  (forall self d, direction_of self window <> Ok (Some d)) /\
  (forall env config all_profit a wins h candles,
     map Bot.rename candles = window ->
     Bot.get_candles env h a (Bot.timeframe_main config) 100 = Ok candles ->
     exists r delta,
       Bot.scan_asset env config all_profit a wins h = (r, h ++ delta) /\
       existsb is_order delta = false /\
       (forall w, r = Ok w -> w = wins)).
Proof.
  intros Hwf.
  destruct window as [|c cs].
  { split; [congruence|]. split; [discriminate|]. split; [discriminate|].
    intros env config all_profit a wins h candles Em Hf.
    destruct (payout_in_band config all_profit a) eqn:Hp.
    - eexists. eexists.
      rewrite (scan_asset_empty_frame _ _ _ _ _ _ Hp).
      + split; [reflexivity|]. split; [reflexivity | discriminate].
      + destruct candles; [exact Hf | discriminate Em].
    - exists (Ok wins), []. rewrite app_nil_r.
      rewrite (scan_asset_out_of_band _ _ _ _ _ _ Hp).
      repeat split. intros w E. now inversion E. }
  destruct (nonempty_snoc (c :: cs)) as (pre & last & E); [discriminate|].
  rewrite E in *. clear E c cs.
  assert (detect_breakout (frame (pre ++ [last])) = Ok None) as Hnone
    by (apply no_breakout_inside_own_range; exact (forallb_last _ _ _ Hwf)).
  split; [intros _; exact Hnone|]. split; [rewrite Hnone; discriminate|].
  split.
  - intros self d. unfold direction_of. rewrite Hnone. cbn [rbind].
    destruct (trend_of_total self pre last) as (t & ->). discriminate.
  - intros env config all_profit a wins h candles Em Hf.
    destruct (payout_in_band config all_profit a) eqn:Hp.
    + destruct (scan_asset_fetched _ _ _ _ wins _ _ _ _ Hp Hf Em)
        as (b & t & f & Eb & _ & Es).
      rewrite Hnone in Eb. inversion Eb; subst b.
      exists (Ok wins), [Bot.EvGetCandles a (Bot.timeframe_main config) 100].
      rewrite Es. split; [reflexivity|]. split; [reflexivity|].
      intros w E. now inversion E.
    + exists (Ok wins), []. rewrite app_nil_r.
      rewrite (scan_asset_out_of_band _ _ _ _ _ _ Hp).
      repeat split. intros w E. now inversion E.
Qed.

Lemma well_formed_window_never_trades_witness :
  forallb well_formed (map Bot.rename inside_candles) = true /\
  detect_breakout (frame (map Bot.rename inside_candles)) = Ok None.
Proof.
  split; [reflexivity|].
  apply (well_formed_window_never_trades (map Bot.rename inside_candles));
    [reflexivity | discriminate].
Defined.

(** C10.  A turn in which the news check reports an event ends after a sleep
    of 60 seconds, has made no call of the scan, and hands the session on as
    it received it: [daily_wins] and [last_trade_date] are unchanged. *)
Theorem news_pause (env : Bot.Env) (config : Bot.Config) (s : Bot.Session)
    (h : Bot.History) :
  news_reported env h = true ->
  exists s' delta,
    Bot.cycle env config s h = (Ok s', h ++ delta) /\
    delta = turn_opening ++ [Bot.EvCheckHighImpactNews true;
                             Bot.EvLog Bot.info Bot.MsgNewsWait;
                             Bot.EvSleep 60] /\
    existsb is_scan delta = false /\
    Bot.daily_wins s' = Bot.daily_wins s /\
    Bot.last_trade_date s' = Bot.last_trade_date s.
Proof.
  intros H. exists s. eexists. rewrite (cycle_news env config s h H).
  repeat split.
Qed.

Lemma news_pause_witness :
  let env := scripted true noon (Ok breaking_candles) (Ok (true, 7%Z))
               (Ok (true, 8 # 10)) in
  let s := {| Bot.daily_wins := 1; Bot.last_trade_date := Some noon |} in
  news_reported env [] = true /\
  exists s' delta,
    Bot.cycle env small_config s [] = (Ok s', [] ++ delta) /\
    delta = turn_opening ++ [Bot.EvCheckHighImpactNews true;
                             Bot.EvLog Bot.info Bot.MsgNewsWait;
                             Bot.EvSleep 60] /\
    existsb is_scan delta = false /\
    Bot.daily_wins s' = 1%Z /\
    Bot.last_trade_date s' = Some noon.
Proof.
  intros env s. split; [reflexivity|].
  apply (news_pause env small_config s []). reflexivity.
Defined.

(** C6.  A turn in which, once the day was rolled over, [daily_wins] has
    reached the cap ends after a sleep of an hour and has made no call of
    the scan: no payout lookup, no candle fetch, no order. *)
Theorem daily_stop_pause (env : Bot.Env) (config : Bot.Config) (s : Bot.Session)
    (h : Bot.History) :
  news_reported env h = false ->
  (Bot.stop_win_victories config
     <= Bot.daily_wins (Bot.rollover s (time_read env h)))%Z ->
  exists delta,
    Bot.cycle env config s h = (Ok (Bot.rollover s (time_read env h)), h ++ delta) /\
    delta = turn_opening ++ [Bot.EvCheckHighImpactNews false;
                             Bot.EvNow (time_read env h);
                             Bot.EvLog Bot.info Bot.MsgDailyStopWin;
                             Bot.EvSleep 3600] /\
    existsb is_scan delta = false.
Proof.
  intros H Hcap. eexists. rewrite (cycle_daily_stop env config s h H Hcap).
  repeat split.
Qed.

Lemma daily_stop_pause_witness :
  let env := scripted false noon (Ok breaking_candles) (Ok (true, 7%Z))
               (Ok (true, 8 # 10)) in
  let s := {| Bot.daily_wins := 2; Bot.last_trade_date := Some noon |} in
  exists delta,
    Bot.cycle env small_config s [] = (Ok s, [] ++ delta) /\
    delta = turn_opening ++ [Bot.EvCheckHighImpactNews false;
                             Bot.EvNow noon;
                             Bot.EvLog Bot.info Bot.MsgDailyStopWin;
                             Bot.EvSleep 3600] /\
    existsb is_scan delta = false.
Proof.
  intros env s.
  apply (daily_stop_pause env small_config s []); [reflexivity|].
  vm_compute. discriminate.
Defined.

(** A turn that passed the news check: the day is rolled over, then the wins
    of the turn are added. *)
Lemma cycle_passed (env : Bot.Env) (config : Bot.Config) (s : Bot.Session)
    (h : Bot.History) :
  news_reported env h = false ->
  let now := time_read env h in
  exists (r : result Bot.Session) (delta : list Bot.Event),
    Bot.cycle env config s h = (r, h ++ delta) /\
    (never_empty_window env config -> exists s', r = Ok s') /\
    (forall s', r = Ok s' ->
       Bot.last_trade_date s' = Some now /\
       Bot.daily_wins s'
         = ((if new_day s now then 0 else Bot.daily_wins s) + count_wins delta)%Z).
Proof.
  intros H now.
  destruct (Z.le_gt_cases (Bot.stop_win_victories config)
              (Bot.daily_wins (Bot.rollover s now))) as [Hcap|Hcap].
  - eexists. eexists. unfold now. rewrite (cycle_daily_stop env config s h H Hcap).
    split; [reflexivity|]. split; [intros _; now eexists|].
    intros s' E. inversion E. cbn [Bot.last_trade_date].
    split; [reflexivity|]. rewrite rollover_wins. cbn. lia.
  - rewrite (cycle_running env config s h H Hcap). cbv zeta. fold now.
    set (h1 := h ++ turn_opening ++ [Bot.EvCheckHighImpactNews false; Bot.EvNow now]).
    destruct (for_assets_total env config (Bot.get_all_profit env h1)
                (Bot.assets config) (Bot.daily_wins (Bot.rollover s now))
                (h1 ++ [Bot.EvGetAllProfit]))
      as (r & delta & E & Hw & Hok).
    rewrite E. destruct r as [wins|e].
    + eexists. eexists. unfold h1. rewrite <- !app_assoc.
      split; [reflexivity|]. split; [intros _; now eexists|].
      intros s' Es. inversion Es. cbn [Bot.last_trade_date Bot.daily_wins].
      split; [reflexivity|].
      rewrite (Hw wins eq_refl), rollover_wins.
      unfold turn_opening. cbn [app count_wins].
      rewrite count_wins_app. cbn [count_wins]. lia.
    + eexists. eexists. unfold h1. rewrite <- !app_assoc.
      split; [reflexivity|]. split; [|discriminate].
      intros Hne. destruct (Hok Hne) as [[w Ew] _]. discriminate Ew.
Qed.

(** While the clock stays on the day of the last turn, the win count of the
    session never goes down, however many turns are taken. *)
Lemma main_loop_same_day (env : Bot.Env) (config : Bot.Config) (day : Z)
    (turns : nat) :
  (forall h, Bot.date (Bot.timestamp_now env h) = day) ->
  forall (s : Bot.Session) (h : Bot.History) (t : Z),
    Bot.last_trade_date s = Some t -> Bot.date t = day ->
    exists r h',
      Bot.main_loop env config turns s h = (r, h') /\
      forall s', r = Ok s' -> (Bot.daily_wins s <= Bot.daily_wins s')%Z.
Proof.
  intros Hday. induction turns as [|k IH]; intros s h t Hs Ht.
  - exists (Ok s), h. split; [reflexivity|]. intros s' E. inversion E. lia.
  - cbn [Bot.main_loop]. unfold Bot.bind.
    destruct (news_reported env h) eqn:Hn.
    + rewrite (cycle_news env config s h Hn).
      destruct (IH s (h ++ turn_opening ++
                        [Bot.EvCheckHighImpactNews true;
                         Bot.EvLog Bot.info Bot.MsgNewsWait; Bot.EvSleep 60])
                  t Hs Ht) as (r & h' & E & Hm).
      now exists r, h'.
    + destruct (cycle_passed env config s h Hn) as (r1 & delta & E1 & _ & H1).
      rewrite E1. destruct r1 as [s1|e].
      * destruct (H1 s1 eq_refl) as [Hd Hw].
        assert (new_day s (time_read env h) = false) as Hsame.
        { unfold new_day. rewrite Hs. apply Z.ltb_ge.
          unfold time_read. rewrite Hday, Ht. lia. }
        rewrite Hsame in Hw.
        destruct (IH s1 (h ++ delta) (time_read env h) Hd (Hday _))
          as (r & h' & E & Hm).
        exists r, h'. split; [exact E|]. intros s' Es.
        specialize (Hm s' Es). pose proof (count_wins_nonneg delta). lia.
      * exists (Raise e), (h ++ delta). split; [reflexivity | discriminate].
Qed.

(** C5.  In a turn that passed the news check, [daily_wins] is set to 0 iff
    [last_trade_date] is unset or on a day strictly before the day read,
    and [last_trade_date] becomes the time read in either case; from there
    the turn adds one per trade won and nothing else, so that on an
    unchanged day [daily_wins] does not go down, in one turn or in many. *)
Theorem daily_wins_rule (env : Bot.Env) (config : Bot.Config) (s : Bot.Session)
    (h : Bot.History) :
  news_reported env h = false ->
  let now := time_read env h in
  (new_day s now = true <->
     Bot.last_trade_date s = None \/
     exists t, Bot.last_trade_date s = Some t /\ (Bot.date t < Bot.date now)%Z) /\
  Bot.daily_wins (Bot.rollover s now)
    = (if new_day s now then 0%Z else Bot.daily_wins s) /\
  Bot.last_trade_date (Bot.rollover s now) = Some now /\
  (exists r delta,
     Bot.cycle env config s h = (r, h ++ delta) /\
     (never_empty_window env config -> exists s', r = Ok s') /\
     (forall s', r = Ok s' ->
        Bot.last_trade_date s' = Some now /\
        Bot.daily_wins s'
          = (Bot.daily_wins (Bot.rollover s now) + count_wins delta)%Z /\
        (0 <= count_wins delta)%Z /\
        (new_day s now = false -> (Bot.daily_wins s <= Bot.daily_wins s')%Z))) /\
  (forall turns day t,
     (forall h', Bot.date (Bot.timestamp_now env h') = day) ->
     Bot.last_trade_date s = Some t -> Bot.date t = day ->
     exists r h',
       Bot.main_loop env config turns s h = (r, h') /\
       forall s', r = Ok s' -> (Bot.daily_wins s <= Bot.daily_wins s')%Z).
Proof.
  intros H now. split; [|split; [apply rollover_wins|split; [reflexivity|split]]].
  - unfold new_day. destruct (Bot.last_trade_date s) as [t|].
    + rewrite Z.ltb_lt. split.
      * intros Hlt. right. now exists t.
      * intros [E|(t' & E & Hlt)]; [discriminate|]. now inversion E.
    + split; [now left | reflexivity].
  - destruct (cycle_passed env config s h H) as (r & delta & E & Hok & Hs).
    exists r, delta. split; [exact E|]. split; [exact Hok|].
    intros s' Es. destruct (Hs s' Es) as [Hd Hw]. fold now in Hd, Hw.
    pose proof (count_wins_nonneg delta) as Hc.
    rewrite rollover_wins. repeat split; try assumption.
    intros Hsame. rewrite Hsame in Hw. lia.
  - intros turns day t Hday Hs Ht.
    exact (main_loop_same_day env config day turns Hday s h t Hs Ht).
Qed.

Lemma daily_wins_rule_witness :
  let env := scripted false noon (Ok breaking_candles) (Ok (true, 7%Z))
               (Ok (true, 8 # 10)) in
  let s := {| Bot.daily_wins := 5; Bot.last_trade_date := None |} in
  news_reported env [] = false /\
  Bot.daily_wins (Bot.rollover s (time_read env [])) = 0%Z /\
  fst (Bot.cycle env small_config s [])
    = Ok {| Bot.daily_wins := 1; Bot.last_trade_date := Some noon |}.
Proof.
  intros env s. split; [reflexivity|].
  destruct (daily_wins_rule env small_config s [] eq_refl) as (_ & Hw & _).
  split; [exact Hw | reflexivity].
Defined.

(** One winning turn, call by call. *)
Example a_winning_turn :
  let env := scripted false noon (Ok breaking_candles) (Ok (true, 7%Z))
               (Ok (true, 8 # 10)) in
  let features :=
    {| Bot.f_pattern_name := "CDL_DOJI"%string; Bot.f_breakout := Some breakout_up;
       Bot.f_trend := up; Bot.f_volume_ratio := Num (30 / ((10 + (30 + 0)) / 2));
       Bot.f_payout := 80 # 100 |} in
  Bot.cycle env small_config {| Bot.daily_wins := 0; Bot.last_trade_date := None |} []
  = (Ok {| Bot.daily_wins := 1; Bot.last_trade_date := Some noon |},
     [Bot.EvLog Bot.info Bot.MsgMainLoop; Bot.EvCheckAndTrainDaily;
      Bot.EvCheckHighImpactNews false; Bot.EvNow noon; Bot.EvGetAllProfit;
      Bot.EvGetCandles "EURUSD"%string 60 100;
      Bot.EvCanTrade "EURUSD"%string true;
      Bot.EvPredictHighChance features true;
      Bot.EvNextAmount "EURUSD"%string (80 # 100) 1;
      Bot.EvLog Bot.info (Bot.MsgEntering "EURUSD"%string Bot.call 1);
      Bot.EvBuy 1 "EURUSD"%string Bot.call;
      Bot.EvCheckWin 7;
      Bot.EvRegisterTrade "EURUSD"%string true;
      Bot.EvLogTrade features true;
      Bot.EvLog Bot.info Bot.MsgNextCycle; Bot.EvSleep 60]).
Proof. reflexivity. Qed.

(** With a cap of two wins, two winning turns are followed by the pause. *)
Example two_wins_then_pause :
  let env := scripted false noon (Ok breaking_candles) (Ok (true, 7%Z))
               (Ok (true, 8 # 10)) in
  let run := Bot.main_loop env small_config 3
               {| Bot.daily_wins := 0; Bot.last_trade_date := None |} [] in
  fst run = Ok {| Bot.daily_wins := 2; Bot.last_trade_date := Some noon |} /\
  skipn 32 (snd run)
    = turn_opening ++ [Bot.EvCheckHighImpactNews false; Bot.EvNow noon;
                       Bot.EvLog Bot.info Bot.MsgDailyStopWin; Bot.EvSleep 3600].
Proof. split; reflexivity. Qed.




(** Orders refused by the broker, call by call: the loss is booked, and the
    scan goes on with the next instrument, where the same happens. *)
Example a_refused_order :
  let env := scripted false noon (Ok breaking_candles)
               (Raise (BrokerError "refused"%string)) (Ok (true, 8 # 10)) in
  let features (payout : Q) :=
    {| Bot.f_pattern_name := "CDL_DOJI"%string; Bot.f_breakout := Some breakout_up;
       Bot.f_trend := up; Bot.f_volume_ratio := Num (30 / ((10 + (30 + 0)) / 2));
       Bot.f_payout := payout |} in
  Bot.for_assets env small_config level_profit ["EURUSD"%string; "GBPUSD"%string] 0 []
  = (Ok 0%Z,
     [Bot.EvGetCandles "EURUSD"%string 60 100;
      Bot.EvCanTrade "EURUSD"%string true;
      Bot.EvPredictHighChance (features (80 # 100)) true;
      Bot.EvNextAmount "EURUSD"%string (80 # 100) 1;
      Bot.EvLog Bot.info (Bot.MsgEntering "EURUSD"%string Bot.call 1);
      Bot.EvBuy 1 "EURUSD"%string Bot.call;
      Bot.EvLog Bot.error (Bot.MsgOrderError (BrokerError "refused"%string));
      Bot.EvRegisterTrade "EURUSD"%string false;
      Bot.EvLogTrade (features (80 # 100)) false;
      Bot.EvGetCandles "GBPUSD"%string 60 100;
      Bot.EvCanTrade "GBPUSD"%string true;
      Bot.EvPredictHighChance (features (90 # 100)) true;
      Bot.EvNextAmount "GBPUSD"%string (90 # 100) 1;
      Bot.EvLog Bot.info (Bot.MsgEntering "GBPUSD"%string Bot.call 1);
      Bot.EvBuy 1 "GBPUSD"%string Bot.call;
      Bot.EvLog Bot.error (Bot.MsgOrderError (BrokerError "refused"%string));
      Bot.EvRegisterTrade "GBPUSD"%string false;
      Bot.EvLogTrade (features (90 # 100)) false]).
Proof. reflexivity. Qed.

(** A fetch that times out, and one that brings nothing: the first is
    logged and the next instrument fetched; the second ends the scan. *)
Example a_failed_fetch :
  let silent := scripted false noon (Raise (BrokerError "timeout"%string))
                  (Ok (true, 7%Z)) (Ok (true, 8 # 10)) in
  let empty := scripted false noon (Ok []) (Ok (true, 7%Z)) (Ok (true, 8 # 10)) in
  Bot.for_assets silent small_config level_profit ["EURUSD"%string; "GBPUSD"%string] 0 []
    = (Ok 0%Z,
       [Bot.EvGetCandles "EURUSD"%string 60 100;
        Bot.EvLog Bot.error (Bot.MsgCandleError (BrokerError "timeout"%string));
        Bot.EvGetCandles "GBPUSD"%string 60 100;
        Bot.EvLog Bot.error (Bot.MsgCandleError (BrokerError "timeout"%string))]) /\
  Bot.cycle empty small_config {| Bot.daily_wins := 0; Bot.last_trade_date := None |} []
    = (Raise (KeyError "close"),
       [Bot.EvLog Bot.info Bot.MsgMainLoop; Bot.EvCheckAndTrainDaily;
        Bot.EvCheckHighImpactNews false; Bot.EvNow noon; Bot.EvGetAllProfit;
        Bot.EvGetCandles "EURUSD"%string 60 100]).
Proof. split; reflexivity. Qed.

(** * Further properties of the analyzer *)

(** ** The order of the calls *)

(** X3.  [detect_trend] reads the columns [calculate_moving_averages] adds:
    on a fetched frame it raises [KeyError] for [MA_fast] before that call
    and returns after it, while [detect_breakout] gives the same result
    before and after. *)
Theorem detect_trend_needs_averages (self : TechnicalAnalyzer)
    (pre : list Candle) (last : Candle) :
  let df0 := frame (pre ++ [last]) in
  detect_trend df0 = Raise (KeyError "MA_fast") /\
  exists df t,
    calculate_moving_averages self df0 = Ok df /\
    detect_trend df = Ok t /\
    detect_breakout df = detect_breakout df0.
Proof.
  intros df0. split.
  - unfold detect_trend, df0. cbn [rows frame]. now rewrite iloc_last_app.
  - destruct (trend_of_total self pre last) as (t & Et).
    unfold trend_of in Et. fold df0 in Et.
    destruct (calculate_moving_averages self df0) as [df|e] eqn:Ec;
      [|discriminate Et].
    exists df, t. split; [reflexivity|]. split; [exact Et|].
    rewrite detect_breakout_rows. f_equal.
    unfold calculate_moving_averages in Ec.
    destruct (column close "close" df0); [|discriminate Ec].
    cbn [rbind] in Ec. inversion Ec. reflexivity.
Qed.

(** ** Trend *)

Lemma flt_asym (a b : float) : flt a b = true -> flt b a = false.
Proof.
  destruct a as [x|], b as [y|]; try discriminate. cbn [flt].
  intros H%Qltb_lt. apply Qltb_ge. lra.
Qed.

(** X4.  Exchanging the fast and the slow period turns [up] into [down] and
    [down] into [up], and leaves [flat] as it is. *)
Theorem swapped_periods_flip_trend (a b vp vp' : nat) (window : list Candle) :
  let self := {| ma_fast := a; ma_slow := b; volume_period := vp |} in
  let swapped := {| ma_fast := b; ma_slow := a; volume_period := vp' |} in
  (trend_of self window = Ok up <-> trend_of swapped window = Ok down) /\
  (trend_of self window = Ok down <-> trend_of swapped window = Ok up) /\
  (trend_of self window = Ok flat <-> trend_of swapped window = Ok flat).
Proof.
  intros self swapped. destruct window as [|c cs].
  { repeat split; discriminate. }
  destruct (nonempty_snoc (c :: cs)) as (pre & last & ->); [discriminate|].
  rewrite !trend_of_snoc. cbv zeta. cbn [ma_fast ma_slow self swapped].
  unfold fgt.
  destruct (flt (last_ma b (pre ++ [last])) (last_ma a (pre ++ [last]))) eqn:E1;
    destruct (flt (last_ma a (pre ++ [last])) (last_ma b (pre ++ [last]))) eqn:E2;
    try (apply flt_asym in E1; congruence);
    repeat split; intros; try discriminate; reflexivity.
Qed.

(** ** Lookback levels *)

Lemma rolling_extreme_short (step : float -> float -> float) (w : nat)
    (seen : list float) :
  (length seen < w)%nat \/ w = 0%nat -> rolling_extreme_at step w seen = NaN.
Proof.
  intros H. unfold rolling_extreme_at.
  destruct H as [H| ->]; [|reflexivity].
  apply Nat.ltb_lt in H. now rewrite H, orb_true_r.
Qed.

(** X6.  With a lookback longer than the window, or of zero, neither level
    of [support_resistance] is available: both come back missing, and
    nothing is raised. *)
Theorem support_resistance_short_window (pre : list Candle) (last : Candle)
    (lookback : nat) :
  (length (pre ++ [last]) < lookback)%nat \/ lookback = 0%nat ->
  support_resistance (frame (pre ++ [last])) lookback = Ok (NaN, NaN).
Proof.
  intros H. unfold support_resistance. rewrite !column_snoc. cbn [rbind].
  rewrite !map_app. cbn [map]. rewrite !rolling_last. cbn [rbind].
  rewrite !rolling_extreme_short; [reflexivity| |];
    (destruct H as [H|H]; [left|right; exact H]);
    rewrite length_app, length_map in *; exact H.
Qed.

Lemma support_resistance_short_window_witness :
  support_resistance (frame ([candle 1 2 0 1 1] ++ [candle 1 3 1 2 1])) 50
    = Ok (NaN, NaN).
Proof.
  apply (support_resistance_short_window [candle 1 2 0 1 1] (candle 1 3 1 2 1) 50).
  left. simpl. lia.
Defined.

Lemma no_nan_in_numbers (qs : list Q) : existsb is_nan (map Num qs) = false.
Proof. induction qs; [reflexivity | exact IHqs]. Qed.

(** X7.  With a lookback of the whole window, on lows and highs that are all
    numbers, [support_resistance] gives the very levels [detect_breakout]
    compares the last close with. *)
Theorem support_resistance_whole_window (pre : list Candle) (last : Candle)
    (ls hs : list Q) :
  let window := pre ++ [last] in
  map low window = map Num ls -> map high window = map Num hs ->
  support_resistance (frame window) (length window)
    = Ok (support window, resistance window).
Proof.
  intros window Hl Hh. unfold support_resistance, window.
  rewrite !column_snoc. cbn [rbind]. fold window.
  assert (forall (step : float -> float -> float) (f : Candle -> float) qs,
            map f window = map Num qs ->
            iloc_last (rolling (rolling_extreme_at step) (length window) (map f window))
            = Ok (fold_left step (map f window) NaN)) as Hcell.
  { intros step f qs Hq.
    assert (map f window = map f pre ++ [f last]) as Em
      by (unfold window; now rewrite map_app).
    rewrite Em at 1. rewrite rolling_last, <- Em. f_equal.
    unfold rolling_extreme_at.
    assert (length window <> 0)%nat as Hn
      by (unfold window; rewrite length_app; cbn [length]; lia).
    apply Nat.eqb_neq in Hn. rewrite Hn. cbn [orb].
    rewrite length_map, Nat.ltb_irrefl.
    unfold tail_window. rewrite length_map, Nat.sub_diag. cbn [skipn].
    now rewrite Hq, no_nan_in_numbers. }
  rewrite (Hcell min_step low ls Hl). cbn [rbind].
  rewrite (Hcell max_step high hs Hh). reflexivity.
Qed.

Lemma support_resistance_whole_window_witness :
  support_resistance (frame ([candle 1 2 0 1 1] ++ [candle 1 3 1 2 1])) 2
    = Ok (Num 0, Num 3).
Proof.
  apply (support_resistance_whole_window [candle 1 2 0 1 1] (candle 1 3 1 2 1)
           [0; 1] [2; 3]); reflexivity.
Defined.

Lemma support_resistance_includes_last_witness : 0 <= 1 /\ 3 <= 3.
Proof.
  apply (support_resistance_includes_last [candle 1 2 0 1 1] (candle 1 3 1 2 1)
           2 0 3 1 3); reflexivity.
Defined.

(** ** Trendline points *)

Section ArgExtreme.

Variable better : Q -> Q -> bool.
Variables le lt : Q -> Q -> Prop.

Hypothesis better_true : forall q m, better q m = true -> lt m q.
Hypothesis better_false : forall q m, better q m = false -> le q m.
Hypothesis lt_le : forall a b, lt a b -> le a b.
Hypothesis le_refl : forall a, le a a.
Hypothesis le_trans : forall a b c, le a b -> le b c -> le a c.
Hypothesis le_lt_trans : forall a b c, le a b -> lt b c -> lt a c.
Hypothesis lt_le_trans : forall a b c, lt a b -> le b c -> lt a c.

(** What [arg_extreme] keeps: nothing when there is no number; otherwise a
    value no cell is better than, which is either the one it started with
    or the first cell better than all before it. *)
Lemma arg_extreme_spec (col : list float) :
  forall (i : nat) (best : option (nat * Q)),
  match arg_extreme better i best col with
  | None => best = None /\ forall q, ~ In (Num q) col
  | Some (k, v) =>
      (forall q, In (Num q) col -> le q v) /\
      (forall j m, best = Some (j, m) -> le m v) /\
      (best = Some (k, v) \/
       exists n, k = (i + n)%nat /\ nth_error col n = Some (Num v) /\
         (forall j m, best = Some (j, m) -> lt m v) /\
         forall n' q, (n' < n)%nat -> nth_error col n' = Some (Num q) -> lt q v)
  end.
Proof.
  induction col as [|x col IH]; intros i best.
  - cbn [arg_extreme]. destruct best as [[k v]|].
    + split; [intros q []|]. split; [|now left].
      intros j m E. inversion E. apply le_refl.
    + split; [reflexivity | intros q []].
  - destruct x as [q|].
    + cbn [arg_extreme].
      assert (forall best', 
        (forall j m, best = Some (j, m) ->
           (best' = best /\ le q m) \/ (best' = Some (i, q) /\ lt m q)) ->
        (best = None -> best' = Some (i, q)) ->
        match arg_extreme better (S i) best' col with
        | None => best = None /\ forall q0, ~ In (Num q0) (Num q :: col)
        | Some (k, v) =>
            (forall q0, In (Num q0) (Num q :: col) -> le q0 v) /\
            (forall j m, best = Some (j, m) -> le m v) /\
            (best = Some (k, v) \/
             exists n, k = (i + n)%nat /\ nth_error (Num q :: col) n = Some (Num v) /\
               (forall j m, best = Some (j, m) -> lt m v) /\
               forall n' q0, (n' < n)%nat ->
                 nth_error (Num q :: col) n' = Some (Num q0) -> lt q0 v)
        end) as Hgen.
      { intros best' Hsome Hnone. specialize (IH (S i) best').
        destruct (arg_extreme better (S i) best' col) as [[k v]|].
        - destruct IH as (Hall & Hbest & Hpos).
          assert (le q v /\ (best' = Some (i, q) -> best' = Some (k, v) -> v = q /\ k = i))
            as [Hqv _].
          { split; [|intros E1 E2; rewrite E1 in E2; inversion E2; auto].
            destruct best as [[j m]|].
            - destruct (Hsome j m eq_refl) as [[-> Hle]|[-> Hlt]].
              + apply le_trans with m; [exact Hle | now apply (Hbest j m)].
              + now apply (Hbest i q).
            - rewrite (Hnone eq_refl) in Hbest. now apply (Hbest i q). }
          split; [|split].
          + intros q0 [E|Hin]; [inversion E; subst; exact Hqv | now apply Hall].
          + intros j m E. destruct (Hsome j m E) as [[-> Hle]|[-> Hlt]].
            * now apply (Hbest j m).
            * apply lt_le. apply lt_le_trans with q; [exact Hlt|].
              now apply (Hbest i q).
          + destruct Hpos as [E|(n & -> & Hn & Hlt & Hbefore)].
            * destruct best as [[j m]|].
              -- destruct (Hsome j m eq_refl) as [[E' Hle]|[E' Hlt]].
                 ++ left. congruence.
                 ++ right. exists 0%nat. rewrite E' in E. inversion E; subst.
                    rewrite Nat.add_0_r. split; [reflexivity|].
                    split; [reflexivity|]. split.
                    ** intros j' m' E2. inversion E2; subst. exact Hlt.
                    ** intros n' q0 Hn'. lia.
              -- right. exists 0%nat. rewrite (Hnone eq_refl) in E.
                 inversion E; subst. rewrite Nat.add_0_r.
                 split; [reflexivity|]. split; [reflexivity|]. split.
                 ** intros j' m' E2. discriminate E2.
                 ** intros n' q0 Hn'. lia.
            * right. exists (S n). split; [lia|]. split; [exact Hn|].
              assert (lt q v) as Hq.
              { destruct best as [[j m]|].
                - destruct (Hsome j m eq_refl) as [[E' Hle]|[E' Hlt']].
                  + apply le_lt_trans with m; [exact Hle|].
                    apply (Hlt j m). exact E'.
                  + apply (Hlt i q). exact E'.
                - apply (Hlt i q). exact (Hnone eq_refl). }
              split.
              -- intros j m E. destruct (Hsome j m E) as [[E' Hle]|[E' Hlt']].
                 ++ apply (Hlt j m). congruence.
                 ++ now apply lt_le_trans with q; [|apply lt_le].
              -- intros [|n'] q0 Hn' Hnth.
                 ++ cbn in Hnth. inversion Hnth; subst. exact Hq.
                 ++ apply (Hbefore n' q0); [lia | exact Hnth].
        - destruct IH as [E _]. destruct best as [[j m]|].
          + destruct (Hsome j m eq_refl) as [[E' _]|[E' _]]; congruence.
          + rewrite (Hnone eq_refl) in E. discriminate E. }
      destruct best as [[j m]|].
      * destruct (better q m) eqn:Eb.
        -- apply Hgen; [|discriminate]. intros j' m' E. inversion E; subst.
           right. split; [reflexivity | now apply better_true].
        -- apply Hgen; [|discriminate]. intros j' m' E. inversion E; subst.
           left. split; [reflexivity | now apply better_false].
      * apply Hgen; [discriminate | reflexivity].
    + cbn [arg_extreme]. specialize (IH (S i) best).
      destruct (arg_extreme better (S i) best col) as [[k v]|].
      * destruct IH as (Hall & Hbest & Hpos). split; [|split; [exact Hbest|]].
        -- intros q [E|Hin]; [discriminate E | now apply Hall].
        -- destruct Hpos as [E|(n & -> & Hn & Hlt & Hbefore)]; [now left|].
           right. exists (S n). split; [lia|]. split; [exact Hn|].
           split; [exact Hlt|]. intros [|n'] q0 Hn' Hnth.
           ++ discriminate Hnth.
           ++ apply (Hbefore n' q0); [lia | exact Hnth].
      * destruct IH as [E Hno]. split; [exact E|].
        intros q [E'|Hin]; [discriminate E' | now apply (Hno q)].
Qed.

End ArgExtreme.

Lemma arg_max_value (col : list float) :
  forall i best,
  kept_value (arg_extreme (fun q m => Qltb m q) i best col)
    = fold_left max_step col (kept_value best).
Proof.
  induction col as [|x col IH]; intros i best; [reflexivity|].
  destruct x as [q|]; cbn [arg_extreme fold_left].
  - destruct best as [[j m]|]; cbn [kept_value max_step].
    + destruct (Qltb m q); apply IH.
    + apply IH.
  - rewrite IH. now destruct best as [[j m]|].
Qed.

Lemma arg_min_value (col : list float) :
  forall i best,
  kept_value (arg_extreme (fun q m => Qltb q m) i best col)
    = fold_left min_step col (kept_value best).
Proof.
  induction col as [|x col IH]; intros i best; [reflexivity|].
  destruct x as [q|]; cbn [arg_extreme fold_left].
  - destruct best as [[j m]|]; cbn [kept_value min_step].
    + destruct (Qltb q m); apply IH.
    + apply IH.
  - rewrite IH. now destruct best as [[j m]|].
Qed.

(** [idxmax] points at the first cell that holds the maximum. *)
Lemma idxmax_spec (col : list float) :
  match idxmax col with
  | Some k =>
      nth_error col k = Some (series_max col) /\
      exists v, series_max col = Num v /\
        forall j q, (j < k)%nat -> nth_error col j = Some (Num q) -> q < v
  | None => series_max col = NaN
  end.
Proof.
  unfold idxmax, series_max.
  pose proof (arg_extreme_spec (fun q m => Qltb m q) Qle Qlt
                (fun q m H => proj1 (Qltb_lt m q) H)
                (fun q m H => proj1 (Qltb_ge m q) H)
                Qlt_le_weak Qle_refl Qle_trans Qle_lt_trans Qlt_le_trans
                col 0%nat None) as H.
  pose proof (arg_max_value col 0%nat None) as Hv. cbn [kept_value] in Hv.
  destruct (arg_extreme (fun q m => Qltb m q) 0 None col) as [[k v]|];
    cbn [option_map fst kept_value] in *.
  - rewrite <- Hv. destruct H as (_ & _ & [E|(n & -> & Hn & _ & Hb)]);
      [discriminate E|].
    split; [exact Hn|]. exists v. split; [reflexivity | exact Hb].
  - now rewrite <- Hv.
Qed.

Lemma idxmin_spec (col : list float) :
  match idxmin col with
  | Some k =>
      nth_error col k = Some (series_min col) /\
      exists v, series_min col = Num v /\
        forall j q, (j < k)%nat -> nth_error col j = Some (Num q) -> v < q
  | None => series_min col = NaN
  end.
Proof.
  unfold idxmin, series_min.
  pose proof (arg_extreme_spec (fun q m => Qltb q m)
                (fun a b => b <= a) (fun a b => b < a)
                (fun q m H => proj1 (Qltb_lt q m) H)
                (fun q m H => proj1 (Qltb_ge q m) H)
                (fun a b H => Qlt_le_weak b a H) Qle_refl
                (fun a b c H1 H2 => Qle_trans c b a H2 H1)
                (fun a b c H1 H2 => Qlt_le_trans c b a H2 H1)
                (fun a b c H1 H2 => Qle_lt_trans c b a H2 H1)
                col 0%nat None) as H.
  pose proof (arg_min_value col 0%nat None) as Hv. cbn [kept_value] in Hv.
  destruct (arg_extreme (fun q m => Qltb q m) 0 None col) as [[k v]|];
    cbn [option_map fst kept_value] in *.
  - rewrite <- Hv. destruct H as (_ & _ & [E|(n & -> & Hn & _ & Hb)]);
      [discriminate E|].
    split; [exact Hn|]. exists v. split; [reflexivity | exact Hb].
  - now rewrite <- Hv.
Qed.

(** X10.  On a window whose lows and highs hold a number,
    [draw_trendlines] returns for LTA the first row that holds the lowest
    low, with that low, and for LTB the first row that holds the highest
    high, with that high: the support and the resistance of
    [detect_breakout].  When one of the two columns holds no number at
    all it raises. *)
Theorem trendlines_at_extremes (pre : list Candle) (last : Candle) :
  let window := pre ++ [last] in
  (forall lo hi, support window = Num lo -> resistance window = Num hi ->
     exists bottom top,
       draw_trendlines (frame window) = Ok ((bottom, Num lo), (top, Num hi)) /\
       nth_error (map low window) bottom = Some (Num lo) /\
       nth_error (map high window) top = Some (Num hi) /\
       (forall j q, (j < bottom)%nat ->
          nth_error (map low window) j = Some (Num q) -> lo < q) /\
       (forall j q, (j < top)%nat ->
          nth_error (map high window) j = Some (Num q) -> q < hi)) /\
  (support window = NaN \/ resistance window = NaN ->
     exists e, draw_trendlines (frame window) = Raise e).
Proof.
  intros window. unfold draw_trendlines, window. rewrite !column_snoc.
  cbn [rbind]. fold window.
  pose proof (idxmax_spec (map high window)) as Hmax.
  pose proof (idxmin_spec (map low window)) as Hmin.
  fold (resistance window) in Hmax. fold (support window) in Hmin.
  split.
  - intros lo hi Hlo Hhi. rewrite Hlo in Hmin. rewrite Hhi in Hmax.
    destruct (idxmin (map low window)) as [bottom|]; [|discriminate Hmin].
    destruct (idxmax (map high window)) as [top|]; [|discriminate Hmax].
    destruct Hmin as (Hb & v & Ev & Hbf). destruct Hmax as (Ht & v' & Ev' & Htf).
    inversion Ev; subst v. inversion Ev'; subst v'.
    exists bottom, top. unfold at_row. rewrite Hb, Ht. cbn [rbind].
    repeat split; assumption.
  - intros [E|E].
    + rewrite E in Hmin.
      destruct (idxmin (map low window)) as [bottom|].
      * destruct Hmin as (_ & v & Ev & _). discriminate Ev.
      * cbn [at_row rbind]. eauto.
    + rewrite E in Hmax.
      destruct (idxmax (map high window)) as [top|].
      * destruct Hmax as (_ & v & Ev & _). discriminate Ev.
      * destruct (at_row (idxmin (map low window)) (map low window));
          cbn [at_row rbind]; eauto.
Qed.

Lemma trendlines_at_extremes_witness :
  exists bottom top,
    draw_trendlines
      (frame ([candle 1 10 0 5 1; candle 1 20 5 7 1] ++ [candle 1 20 0 7 1]))
    = Ok ((bottom, Num 0), (top, Num 20)).
Proof.
  destruct (trendlines_at_extremes [candle 1 10 0 5 1; candle 1 20 5 7 1]
              (candle 1 20 0 7 1)) as [H _].
  destruct (H 0 20 eq_refl eq_refl) as (bottom & top & E & _).
  now exists bottom, top.
Defined.

(** * Further properties of the loop *)

(** ** The calls of a scan *)

Lemma count_app (p : Bot.Event -> bool) (t1 t2 : list Bot.Event) :
  count p (t1 ++ t2) = (count p t1 + count p t2)%nat.
Proof. unfold count. now rewrite filter_app, length_app. Qed.

Lemma fetched_app (t1 t2 : list Bot.Event) :
  fetched (t1 ++ t2) = fetched t1 ++ fetched t2.
Proof.
  induction t1 as [|e t1 IH]; [reflexivity|].
  destruct e; cbn [app fetched]; rewrite ?IH; reflexivity.
Qed.

Lemma count_zero_existsb (p : Bot.Event -> bool) (t : list Bot.Event) :
  count p t = 0%nat <-> existsb p t = false.
Proof.
  unfold count. induction t as [|e t IH]; [easy|].
  cbn [filter existsb]. destruct (p e); cbn [length orb]; [easy | exact IH].
Qed.

Ltac split_all := repeat match goal with |- _ /\ _ => split end.

Ltac close_shape :=
  first [ reflexivity | lia | discriminate
        | solve [intros w E; inversion E; subst; cbn; lia]
        | solve [intros; discriminate]
        | solve [repeat constructor]
        | solve [cbn [In]; eauto 12] ].

(** The calls between a signal and the end of the instrument's turn: all on
    behalf of the instrument, at most one order, which is registered and
    logged whatever becomes of it and is only sent once the staking and
    the prediction collaborators both said yes. *)
Lemma trade_on_signal_shape (env : Bot.Env) (a : Bot.asset) (payout : Q)
    (b : option Breakout) (t : Trend) (f : Bot.Features) (wins : Z)
    (h : Bot.History) :
  exists (w : Z) (delta : list Bot.Event),
    Bot.trade_on_signal env a payout b t f wins h = (Ok w, h ++ delta) /\
    Forall (concerns a) delta /\
    fetched delta = [] /\
    (count is_order delta <= 1)%nat /\
    count is_registered delta = count is_order delta /\
    count is_logged_trade delta = count is_order delta /\
    count is_sleep delta = 0%nat /\
    (wins <= w <= wins + Z.of_nat (count is_order delta))%Z /\
    (count is_order delta = 1%nat ->
       In (Bot.EvCanTrade a true) delta /\
       In (Bot.EvPredictHighChance f true) delta /\
       exists d, Bot.infer_direction b t = Some d).
Proof.
  unfold Bot.trade_on_signal. destruct b as [b|].
  2:{ exists wins, []. step_bot. rewrite app_nil_r. cbn.
      split_all; close_shape. }
  step_bot. destruct (Bot.can_trade env h a).
  2:{ exists wins. eexists. split; [reflexivity|]. cbn.
      split_all; close_shape. }
  destruct (Bot.infer_direction (Some b) t) as [d|] eqn:Ed.
  2:{ exists wins. eexists. step_bot. split; [reflexivity|]. cbn.
      split_all; close_shape. }
  step_bot. destruct (Bot.predict_high_chance env _ f).
  2:{ exists wins. eexists. rewrite <- app_assoc. split; [reflexivity|]. cbn.
      split_all; close_shape. }
  unfold Bot.place_order. step_bot.
  destruct (Bot.buy env _ _ _ _ _) as [[status order_id]|e];
    [destruct (Bot.check_win env _ _) as [[won' profit]|e]|];
    eexists; eexists; rewrite <- !app_assoc; cbn [app];
    (split; [reflexivity|]); cbn [fst snd];
    try (destruct won'); cbn;
    split_all; try close_shape;
    intros _; split_all; close_shape.
Qed.

(** The same for the whole turn of one instrument. *)
Lemma scan_asset_shape (env : Bot.Env) (config : Bot.Config)
    (all_profit : list (Bot.asset * list (string * Q))) (a : Bot.asset)
    (wins : Z) (h : Bot.History) :
  exists (r : result Z) (delta : list Bot.Event),
    Bot.scan_asset env config all_profit a wins h = (r, h ++ delta) /\
    Forall (concerns a) delta /\
    fetched delta = (if payout_in_band config all_profit a then [a] else []) /\
    (count is_order delta <= length (fetched delta))%nat /\
    count is_registered delta = count is_order delta /\
    count is_logged_trade delta = count is_order delta /\
    count is_sleep delta = 0%nat /\
    (forall w, r = Ok w ->
       (wins <= w <= wins + Z.of_nat (count is_order delta))%Z) /\
    (forall e, r = Raise e ->
       Bot.get_candles env h a (Bot.timeframe_main config) 100 = Ok []) /\
    (count is_order delta = 1%nat ->
       In (Bot.EvCanTrade a true) delta /\
       exists f, In (Bot.EvPredictHighChance f true) delta).
Proof.
  destruct (payout_in_band config all_profit a) eqn:Hp.
  2:{ exists (Ok wins), []. rewrite app_nil_r.
      rewrite (scan_asset_out_of_band _ _ _ _ _ _ Hp). cbn.
      split_all; close_shape. }
  destruct (Bot.get_candles env h a (Bot.timeframe_main config) 100)
    as [candles|e] eqn:Hf.
  2:{ eexists. eexists.
      rewrite (scan_asset_fetch_fails _ _ _ _ _ _ _ Hp Hf).
      split; [reflexivity|]. cbn.
      split_all; close_shape. }
  destruct (map Bot.rename candles) as [|c cs] eqn:Em.
  { destruct candles; [|discriminate Em]. eexists. eexists.
    rewrite (scan_asset_empty_frame _ _ _ _ _ _ Hp Hf).
    split; [reflexivity|]. cbn.
      split_all; close_shape. }
  destruct (nonempty_snoc (c :: cs)) as (pre & last & Es); [discriminate|].
  rewrite Es in Em.
  destruct (scan_asset_fetched _ _ _ _ wins _ _ _ _ Hp Hf Em)
    as (b & t & f & _ & _ & E).
  destruct (trade_on_signal_shape env a
              (Bot.dict_get (Bot.dict_get all_profit a []) "turbo" 0) b t f wins
              (h ++ [Bot.EvGetCandles a (Bot.timeframe_main config) 100]))
    as (w & delta & Et & Hall & Hfe & Hone & Hreg & Hlog & Hsl & Hw & Hpre).
  exists (Ok w), (Bot.EvGetCandles a (Bot.timeframe_main config) 100 :: delta).
  rewrite E, Et, <- app_assoc. split; [reflexivity|].
  cbn [fetched]. rewrite Hfe.
  change (count ?p (Bot.EvGetCandles ?x ?y ?z :: delta)) with (count p delta).
  split_all; try assumption.
  - constructor; [reflexivity | exact Hall].
  - reflexivity.
  - intros w' Ew. inversion Ew; subst w'. exact Hw.
  - discriminate.
  - intros H1. destruct (Hpre H1) as (Hc & Hp' & _).
    split; [now right | exists f; now right].
Qed.

(** And for the scan of all instruments. *)
Lemma for_assets_shape (env : Bot.Env) (config : Bot.Config)
    (all_profit : list (Bot.asset * list (string * Q))) (todo : list Bot.asset) :
  forall (wins : Z) (h : Bot.History),
  exists (r : result Z) (delta : list Bot.Event),
    Bot.for_assets env config all_profit todo wins h = (r, h ++ delta) /\
    Forall (fun e => exists a, In a todo /\ concerns a e) delta /\
    (exists later,
       filter (payout_in_band config all_profit) todo = fetched delta ++ later /\
       forall w, r = Ok w -> later = []) /\
    (count is_order delta <= length (fetched delta))%nat /\
    count is_registered delta = count is_order delta /\
    count is_logged_trade delta = count is_order delta /\
    count is_sleep delta = 0%nat /\
    (forall w, r = Ok w ->
       (wins <= w <= wins + Z.of_nat (count is_order delta))%Z) /\
    (never_empty_window env config -> exists w, r = Ok w).
Proof.
  induction todo as [|a rest IH]; intros wins h.
  - exists (Ok wins), []. rewrite app_nil_r. cbn.
    split_all; close_shape.
  - cbn [Bot.for_assets]. unfold Bot.bind.
    destruct (scan_asset_shape env config all_profit a wins h)
      as (r1 & d1 & E1 & Hall1 & Hf1 & Ho1 & Hr1 & Hl1 & Hs1 & Hw1 & Hraise & _).
    rewrite E1.
    assert (Forall (fun e => exists a0, In a0 (a :: rest) /\ concerns a0 e) d1)
      as Hall1'.
    { eapply Forall_impl; [|exact Hall1]. intros e He. exists a.
      split; [now left | exact He]. }
    assert (filter (payout_in_band config all_profit) (a :: rest)
            = fetched d1 ++ filter (payout_in_band config all_profit) rest) as Hfil.
    { cbn [filter]. rewrite Hf1.
      now destruct (payout_in_band config all_profit a). }
    destruct r1 as [w1|e].
    + destruct (IH w1 (h ++ d1))
        as (r & d2 & E2 & Hall2 & (later & Hf2 & Hlater) & Ho2 & Hr2 & Hl2 & Hs2
            & Hw2 & Hne).
      exists r, (d1 ++ d2). rewrite E2, app_assoc.
      rewrite !count_app, fetched_app, length_app.
      split_all; try lia; try reflexivity.
      * apply Forall_app. split; [exact Hall1'|].
        eapply Forall_impl; [|exact Hall2].
        intros e (a0 & Hin & He). exists a0. split; [now right | exact He].
      * exists later. split; [|exact Hlater].
        now rewrite Hfil, Hf2, app_assoc.
      * intros w Ew. specialize (Hw1 w1 eq_refl). specialize (Hw2 w Ew). lia.
      * exact Hne.
    + exists (Raise e), d1. split_all; try assumption; try reflexivity.
      * exists (filter (payout_in_band config all_profit) rest).
        split; [exact Hfil | intros w E; discriminate E].
      * intros Hne. exfalso. exact (Hne h a (Hraise e eq_refl)).
Qed.

(** ** What the predictor is given *)



(** ** The payout filter *)

Lemma dict_get_missing {V} (d : list (string * V)) (key : string) (default : V) :
  (forall v, ~ In (key, v) d) -> Bot.dict_get d key default = default.
Proof.
  induction d as [|[k v] d IH]; intros H; [reflexivity|].
  cbn [Bot.dict_get]. destruct (String.eqb k key) eqn:E.
  - apply String.eqb_eq in E. subst k. exfalso. apply (H v). now left.
  - apply IH. intros v' Hin. apply (H v'). now right.
Qed.

(** X12.  An instrument whose turbo payout is below [min_payout] or above
    [max_payout] is passed over without a single call; an instrument that
    [get_all_profit] does not list, or lists without a turbo entry, counts
    as paying 0. *)
Theorem payout_filter (env : Bot.Env) (config : Bot.Config)
    (all_profit : list (Bot.asset * list (string * Q))) (a : Bot.asset)
    (wins : Z) (h : Bot.History) :
  let payout := Bot.dict_get (Bot.dict_get all_profit a []) "turbo" 0 in
  (payout < Bot.min_payout config \/ Bot.max_payout config < payout ->
     Bot.scan_asset env config all_profit a wins h = (Ok wins, h)) /\
  ((forall d, ~ In (a, d) all_profit) -> payout = 0) /\
  ((forall v, ~ In ("turbo"%string, v) (Bot.dict_get all_profit a [])) -> payout = 0).
Proof.
  intros payout. split; [|split].
  - intros H. apply scan_asset_out_of_band. unfold payout_in_band. cbv zeta.
    fold payout. apply negb_false_iff, orb_true_iff.
    destruct H as [H|H]; [left|right]; now apply Qltb_lt.
  - intros H. unfold payout. now rewrite (dict_get_missing all_profit a [] H).
  - intros H. unfold payout. now apply dict_get_missing.
Qed.

Lemma payout_filter_witness :
  Bot.scan_asset (scripted false noon (Ok breaking_candles) (Ok (true, 7%Z))
                    (Ok (true, 8 # 10)))
    small_config scripted_profit "USDJPY"%string 0 [] = (Ok 0%Z, []).
Proof.
  apply (payout_filter (scripted false noon (Ok breaking_candles) (Ok (true, 7%Z))
                          (Ok (true, 8 # 10)))
           small_config scripted_profit "USDJPY"%string 0%Z []).
  left. reflexivity.
Defined.

(** ** The order and the number of the calls *)

(** X13.  When no fetch comes back without candles, the scan returns and
    has fetched the candles of the instruments inside the payout band, each
    once, in the order of the configuration, and of no other. *)
Theorem fetches_follow_configuration (env : Bot.Env) (config : Bot.Config)
    (all_profit : list (Bot.asset * list (string * Q))) (todo : list Bot.asset)
    (wins : Z) (h : Bot.History) :
  never_empty_window env config ->
  exists w delta,
    Bot.for_assets env config all_profit todo wins h = (Ok w, h ++ delta) /\
    fetched delta = filter (payout_in_band config all_profit) todo.
Proof.
  intros Hne.
  destruct (for_assets_shape env config all_profit todo wins h)
    as (r & delta & E & _ & (later & Hf & Hlater) & _ & _ & _ & _ & _ & Hok).
  destruct (Hok Hne) as (w & ->). exists w, delta. split; [exact E|].
  now rewrite Hf, (Hlater w eq_refl), app_nil_r.
Qed.

Lemma fetches_follow_configuration_witness :
  exists w delta,
    Bot.for_assets (scripted false noon (Raise (BrokerError "timeout"%string))
                      (Ok (true, 7%Z)) (Ok (true, 8 # 10)))
      small_config scripted_profit
      ["GBPUSD"%string; "EURUSD"%string; "GBPUSD"%string; "EURUSD"%string] 0 []
      = (Ok w, [] ++ delta) /\
    fetched delta = ["EURUSD"%string; "EURUSD"%string].
Proof.
  apply (fetches_follow_configuration
           (scripted false noon (Raise (BrokerError "timeout"%string))
              (Ok (true, 7%Z)) (Ok (true, 8 # 10)))
           small_config scripted_profit
           ["GBPUSD"%string; "EURUSD"%string; "GBPUSD"%string; "EURUSD"%string]
           0%Z []).
  intros h a. discriminate.
Defined.

(** ** Orders and their booking *)

(** Where an element of the kind [p] can lie in a list that starts with
    elements of another kind. *)
Lemma app_eq_first {A} (p : A -> bool) (l1 : list A) (x : A) (l2 b : list A)
    (y : A) (a : list A) :
  existsb p l1 = false -> p y = true ->
  l1 ++ x :: l2 = b ++ y :: a ->
  (b = l1 /\ y = x /\ a = l2) \/ (exists b', b = l1 ++ x :: b' /\ l2 = b' ++ y :: a).
Proof.
  revert b. induction l1 as [|c l1 IH]; intros b Hl Hy E.
  - destruct b as [|b0 b]; cbn [app] in E; inversion E; [left | right; exists b]; auto.
  - cbn [existsb] in Hl. apply orb_false_iff in Hl as [Hc Hl].
    destruct b as [|b0 b]; cbn [app] in E; inversion E; subst.
    + congruence.
    + destruct (IH b Hl Hy H1) as [(-> & -> & ->)|(b' & -> & ->)];
        [left | right; exists b']; auto.
Qed.

Lemma existsb_booking (t : list Bot.Event) :
  existsb is_booking t = false ->
  existsb is_order t = false /\ existsb is_registered t = false /\
  existsb is_logged_trade t = false.
Proof.
  induction t as [|e t IH]; [auto|]. cbn [existsb]. intros H.
  apply orb_false_iff in H as [He Ht]. destruct (IH Ht) as (H1 & H2 & H3).
  rewrite H1, H2, H3. unfold is_booking in He.
  apply orb_false_iff in He as [He He3]. apply orb_false_iff in He as [He1 He2].
  rewrite He1, He2, He3. auto.
Qed.

(** Between an order and its booking there is no other order and no other
    booking. *)
Lemma order_outcome_quiet (env : Bot.Env) (h : Bot.History) (amount : Q)
    (a : Bot.asset) (d : Bot.Direction) (mid : list Bot.Event) (won : bool) :
  order_outcome env h amount a d mid won -> existsb is_booking mid = false.
Proof.
  unfold order_outcome.
  destruct (Bot.buy env h amount a d 1) as [[status order_id]|e];
    [destruct (Bot.check_win env _ order_id) as [[answer profit]|e]|];
    intros [-> _]; reflexivity.
Qed.

(** The calls of [place_order], one by one. *)
Lemma place_order_calls (env : Bot.Env) (a : Bot.asset) (d : Bot.Direction)
    (f : Bot.Features) (payout : Q) (wins : Z) (h : Bot.History) :
  let amount := Bot.next_amount env h a true payout in
  let h2 := h ++ [Bot.EvNextAmount a payout amount;
                  Bot.EvLog Bot.info (Bot.MsgEntering a d amount)] in
  exists mid won,
    order_outcome env h2 amount a d mid won /\
    Bot.place_order env a d f payout wins h
      = (Ok (if won then (wins + 1)%Z else wins),
         h2 ++ Bot.EvBuy amount a d
               :: mid ++ [Bot.EvRegisterTrade a won; Bot.EvLogTrade f won]).
Proof.
  intros amount h2. unfold order_outcome, Bot.place_order. step_bot.
  fold amount. subst h2. rewrite <- !app_assoc. cbn [app].
  destruct (Bot.buy env _ amount a d 1) as [[status order_id]|e]; step_bot;
    cbn [fst snd].
  - rewrite <- !app_assoc. cbn [app].
    destruct (Bot.check_win env _ order_id) as [[answer profit]|e]; step_bot;
      cbn [fst snd].
    + exists [Bot.EvCheckWin order_id], answer. split; [auto|].
      rewrite <- !app_assoc. reflexivity.
    + exists [Bot.EvCheckWin order_id; Bot.EvLog Bot.error (Bot.MsgOrderError e)], false.
      split; [auto|]. rewrite <- !app_assoc. reflexivity.
  - exists [Bot.EvLog Bot.error (Bot.MsgOrderError e)], false.
    split; [auto|]. rewrite <- !app_assoc. reflexivity.
Qed.

(** The calls of one instrument's turn: either no order and no booking, or
    the fetch, a yes from [can_trade], a yes from [predict_high_chance], the
    stake, the entry in the log, the order, its outcome and its booking. *)
Lemma scan_asset_calls (env : Bot.Env) (config : Bot.Config)
    (all_profit : list (Bot.asset * list (string * Q))) (a : Bot.asset)
    (wins : Z) (h : Bot.History) :
  let fetch := Bot.EvGetCandles a (Bot.timeframe_main config) 100 in
  let payout := Bot.dict_get (Bot.dict_get all_profit a []) "turbo" 0 in
  exists (r : result Z) (delta : list Bot.Event),
    Bot.scan_asset env config all_profit a wins h = (r, h ++ delta) /\
    (existsb is_booking delta = false \/
     exists f d mid won,
       let h1 := h ++ [fetch; Bot.EvCanTrade a true; Bot.EvPredictHighChance f true] in
       let amount := Bot.next_amount env h1 a true payout in
       let staked := [Bot.EvNextAmount a payout amount;
                      Bot.EvLog Bot.info (Bot.MsgEntering a d amount)] in
       Bot.can_trade env (h ++ [fetch]) a = true /\
       Bot.predict_high_chance env (h ++ [fetch; Bot.EvCanTrade a true]) f = true /\
       order_outcome env (h1 ++ staked) amount a d mid won /\
       r = Ok (if won then (wins + 1)%Z else wins) /\
       delta = [fetch; Bot.EvCanTrade a true; Bot.EvPredictHighChance f true]
                 ++ staked
                 ++ Bot.EvBuy amount a d
                    :: mid ++ [Bot.EvRegisterTrade a won; Bot.EvLogTrade f won]).
Proof.
  intros fetch payout.
  destruct (payout_in_band config all_profit a) eqn:Hp.
  2:{ exists (Ok wins), []. rewrite app_nil_r.
      rewrite (scan_asset_out_of_band _ _ _ _ _ _ Hp). split; [reflexivity | now left]. }
  destruct (Bot.get_candles env h a (Bot.timeframe_main config) 100)
    as [candles|e] eqn:Hf.
  2:{ eexists. eexists.
      rewrite (scan_asset_fetch_fails _ _ _ _ _ _ _ Hp Hf).
      split; [reflexivity | now left]. }
  destruct (map Bot.rename candles) as [|c cs] eqn:Em.
  { destruct candles; [|discriminate Em]. eexists. eexists.
    rewrite (scan_asset_empty_frame _ _ _ _ _ _ Hp Hf).
    split; [reflexivity | now left]. }
  destruct (nonempty_snoc (c :: cs)) as (pre & last & Es); [discriminate|].
  rewrite Es in Em.
  destruct (scan_asset_fetched _ _ _ _ wins _ _ _ _ Hp Hf Em)
    as (b & t & f & _ & _ & E).
  rewrite E. fold fetch payout. clear E.
  unfold Bot.trade_on_signal. destruct b as [b|].
  2:{ exists (Ok wins), [fetch]. split; [reflexivity | now left]. }
  step_bot. destruct (Bot.can_trade env (h ++ [fetch]) a) eqn:Hc.
  2:{ eexists. eexists. rewrite <- app_assoc. split; [reflexivity | now left]. }
  destruct (Bot.infer_direction (Some b) t) as [d|].
  2:{ eexists. eexists. step_bot. rewrite <- app_assoc.
      split; [reflexivity | now left]. }
  step_bot. rewrite <- app_assoc. cbn [app].
  destruct (Bot.predict_high_chance env _ f) eqn:Hh.
  2:{ eexists. eexists. rewrite <- app_assoc. split; [reflexivity | now left]. }
  rewrite <- app_assoc. cbn [app].
  destruct (place_order_calls env a d f payout wins
              (h ++ [fetch; Bot.EvCanTrade a true; Bot.EvPredictHighChance f true]))
    as (mid & won & Ho & E).
  rewrite E. eexists. eexists. rewrite <- !app_assoc. cbn [app].
  split; [reflexivity|]. right. exists f, d, mid, won. cbv zeta.
  split; [reflexivity|]. split; [exact Hh|]. split; [exact Ho|].
  split; reflexivity.
Qed.

Lemma no_order_inside (t before after : list Bot.Event) (e : Bot.Event)
    (p : Bot.Event -> bool) :
  existsb p t = false -> p e = true -> t <> before ++ e :: after.
Proof.
  intros Ht He ->. rewrite existsb_app in Ht. cbn [existsb] in Ht.
  rewrite He in Ht. now destruct (existsb p before).
Qed.

(** Calls without an order or a booking among them leave nothing to book. *)
Lemma quiet_booked (env : Bot.Env) (t : list Bot.Event) :
  forall h, existsb is_booking t = false -> booked env h t.
Proof.
  induction t as [|e t IH]; intros h H; [constructor|].
  cbn [existsb] in H. apply orb_false_iff in H as [He Ht].
  apply booked_other; [exact He | now apply IH].
Qed.

Lemma booked_app (env : Bot.Env) (h : Bot.History) (t1 t2 : list Bot.Event) :
  booked env h t1 -> booked env (h ++ t1) t2 -> booked env h (t1 ++ t2).
Proof.
  intros H. revert t2.
  induction H as [h | h e t He Ht IH | h amount a d mid won f t Ho Ht IH];
    intros t2 H2.
  - now rewrite app_nil_r in H2.
  - cbn [app]. apply booked_other; [exact He|]. apply IH.
    now rewrite <- app_assoc.
  - cbn [app]. rewrite <- app_assoc. cbn [app].
    apply booked_order; [exact Ho|]. apply IH.
    rewrite <- app_assoc. cbn [app]. rewrite <- app_assoc. exact H2.
Qed.

Lemma scan_asset_booked (env : Bot.Env) (config : Bot.Config)
    (all_profit : list (Bot.asset * list (string * Q))) (a : Bot.asset)
    (wins : Z) (h : Bot.History) :
  exists (r : result Z) (delta : list Bot.Event),
    Bot.scan_asset env config all_profit a wins h = (r, h ++ delta) /\
    booked env h delta.
Proof.
  destruct (scan_asset_calls env config all_profit a wins h)
    as (r & delta & E & [Hq|(f & d & mid & won & _ & _ & Ho & _ & ->)]);
    exists r; eexists; (split; [exact E|]).
  - now apply quiet_booked.
  - cbn [app]. do 5 (apply booked_other; [reflexivity|]).
    rewrite <- !app_assoc. cbn [app].
    rewrite <- !app_assoc in Ho. cbn [app] in Ho.
    apply booked_order; [exact Ho | constructor].
Qed.

Lemma for_assets_booked (env : Bot.Env) (config : Bot.Config)
    (all_profit : list (Bot.asset * list (string * Q))) (todo : list Bot.asset) :
  forall (wins : Z) (h : Bot.History),
  exists (r : result Z) (delta : list Bot.Event),
    Bot.for_assets env config all_profit todo wins h = (r, h ++ delta) /\
    booked env h delta.
Proof.
  induction todo as [|a rest IH]; intros wins h.
  - exists (Ok wins), []. rewrite app_nil_r. split; [reflexivity | constructor].
  - cbn [Bot.for_assets]. unfold Bot.bind.
    destruct (scan_asset_booked env config all_profit a wins h)
      as (r1 & d1 & E1 & H1).
    rewrite E1. destruct r1 as [w1|e].
    + destruct (IH w1 (h ++ d1)) as (r & d2 & E2 & H2).
      exists r, (d1 ++ d2). rewrite E2, app_assoc. split; [reflexivity|].
      now apply booked_app.
    + now exists (Raise e), d1.
Qed.

(** In booked calls every order is followed by its outcome and its two
    bookings. *)
Lemma booked_forward (env : Bot.Env) (h : Bot.History) (delta : list Bot.Event) :
  booked env h delta ->
  forall before amount a d after,
    delta = before ++ Bot.EvBuy amount a d :: after ->
    exists mid won f rest,
      order_outcome env (h ++ before) amount a d mid won /\
      after = mid ++ Bot.EvRegisterTrade a won :: Bot.EvLogTrade f won :: rest.
Proof.
  induction 1 as [h | h e t He Ht IH | h amount0 a0 d0 mid0 won0 f0 t Ho Ht IH];
    intros before amount a d after E.
  - destruct before; discriminate E.
  - destruct before as [|b before]; cbn [app] in E; inversion E; subst.
    + discriminate He.
    + destruct (IH before amount a d after eq_refl) as (mid & won & f & rest & Hm & ->).
      exists mid, won, f, rest. rewrite <- app_assoc in Hm. now split.
  - destruct before as [|b before]; cbn [app] in E; inversion E; subst.
    + rewrite app_nil_r. now exists mid0, won0, f0, t.
    + pose proof (order_outcome_quiet _ _ _ _ _ _ _ Ho) as Hq.
      apply existsb_booking in Hq as (Hq & _ & _).
      destruct (app_eq_first is_order mid0 _ _ before (Bot.EvBuy amount a d) after Hq eq_refl H1)
        as [(_ & Hy & _)|(b' & -> & Hb)]; [discriminate Hy|].
      destruct b' as [|l b']; cbn [app] in Hb; inversion Hb; subst.
      destruct (IH b' amount a d after eq_refl) as (mid & won & f & rest & Hm & ->).
      exists mid, won, f, rest. split; [|reflexivity].
      rewrite <- !app_assoc in Hm. cbn [app] in Hm. rewrite <- !app_assoc in Hm.
      cbn [app] in Hm. exact Hm.
Qed.

(** And nothing is registered but the order sent just before, nor logged
    as a trade but what was just registered. *)
Lemma booked_backward (env : Bot.Env) (h : Bot.History) (delta : list Bot.Event) :
  booked env h delta ->
  forall before a won after,
    delta = before ++ Bot.EvRegisterTrade a won :: after ->
    exists before' amount d mid f rest,
      before = before' ++ Bot.EvBuy amount a d :: mid /\
      order_outcome env (h ++ before') amount a d mid won /\
      after = Bot.EvLogTrade f won :: rest.
Proof.
  induction 1 as [h | h e t He Ht IH | h amount0 a0 d0 mid0 won0 f0 t Ho Ht IH];
    intros before a won after E.
  - destruct before; discriminate E.
  - destruct before as [|b before]; cbn [app] in E; inversion E; subst.
    + discriminate He.
    + destruct (IH before a won after eq_refl)
        as (before' & amount & d & mid & f & rest & -> & Hm & ->).
      exists (b :: before'), amount, d, mid, f, rest.
      rewrite <- app_assoc in Hm. now repeat split.
  - destruct before as [|b before]; cbn [app] in E; inversion E; subst.
    pose proof (order_outcome_quiet _ _ _ _ _ _ _ Ho) as Hq.
    apply existsb_booking in Hq as (_ & Hq & _).
    destruct (app_eq_first is_registered mid0 _ _ before (Bot.EvRegisterTrade a won) after Hq eq_refl H1)
      as [(-> & Hy & ->)|(b' & -> & Hb)].
    + inversion Hy; subst.
      exists [], amount0, d0, mid0, f0, t. rewrite app_nil_r. now repeat split.
    + destruct b' as [|l b']; cbn [app] in Hb; inversion Hb; subst.
      destruct (IH b' a won after eq_refl)
        as (before' & amount & d & mid & f & rest & -> & Hm & ->).
      exists (Bot.EvBuy amount0 a0 d0
                :: mid0 ++ Bot.EvRegisterTrade a0 won0 :: Bot.EvLogTrade f0 won0
                :: before'),
             amount, d, mid, f, rest.
      split; [|split; [|reflexivity]].
      * cbn [app]. rewrite <- app_assoc. reflexivity.
      * rewrite <- !app_assoc in Hm. cbn [app] in Hm. rewrite <- !app_assoc in Hm.
        exact Hm.
Qed.

(** X14.  Every call made during the turn of an instrument is made on its
    behalf, and at most one order is sent.  An order is for that instrument
    and comes only after the fetch, a yes from [can_trade], a yes from
    [predict_high_chance], the stake and the entry in the log, in that
    order; it is followed by its outcome, by its registration and by the
    log of the features the predictor was asked about, and by nothing
    else. *)
Theorem scan_calls_concern_the_instrument (env : Bot.Env) (config : Bot.Config)
    (all_profit : list (Bot.asset * list (string * Q))) (a : Bot.asset)
    (wins : Z) (h : Bot.History) :
  let fetch := Bot.EvGetCandles a (Bot.timeframe_main config) 100 in
  let payout := Bot.dict_get (Bot.dict_get all_profit a []) "turbo" 0 in
  exists r delta,
    Bot.scan_asset env config all_profit a wins h = (r, h ++ delta) /\
    Forall (concerns a) delta /\
    (count is_order delta <= 1)%nat /\
    (forall before amount a' d after,
       delta = before ++ Bot.EvBuy amount a' d :: after ->
       a' = a /\
       exists f mid won,
         before = [fetch; Bot.EvCanTrade a true; Bot.EvPredictHighChance f true;
                   Bot.EvNextAmount a payout amount;
                   Bot.EvLog Bot.info (Bot.MsgEntering a d amount)] /\
         Bot.can_trade env (h ++ [fetch]) a = true /\
         Bot.predict_high_chance env (h ++ [fetch; Bot.EvCanTrade a true]) f = true /\
         amount = Bot.next_amount env
                    (h ++ [fetch; Bot.EvCanTrade a true; Bot.EvPredictHighChance f true])
                    a true payout /\
         order_outcome env (h ++ before) amount a d mid won /\
         after = mid ++ [Bot.EvRegisterTrade a won; Bot.EvLogTrade f won] /\
         r = Ok (if won then (wins + 1)%Z else wins)).
Proof.
  intros fetch payout.
  destruct (scan_asset_shape env config all_profit a wins h)
    as (r & delta & E & Hall & Hf & Ho & _).
  exists r, delta. split; [exact E|]. split; [exact Hall|]. split.
  { rewrite Hf in Ho. destruct (payout_in_band config all_profit a);
      cbn [length] in Ho; lia. }
  intros before amount a' d after Hd.
  destruct (scan_asset_calls env config all_profit a wins h)
    as (r' & delta' & E' & Hcalls).
  rewrite E in E'. inversion E' as [[Hr Hdelta]]. apply app_inv_head in Hdelta.
  subst r' delta'. fold fetch payout in Hcalls.
  destruct Hcalls as [Hq|(f & d0 & mid & won & Hc & Hh & Hout & Hr & Hshape)].
  { apply existsb_booking in Hq as (Hq & _).
    exfalso. exact (no_order_inside _ _ _ (Bot.EvBuy amount a' d) is_order Hq eq_refl Hd). }
  cbv zeta in Hout, Hshape. rewrite Hshape in Hd.
  pose proof (order_outcome_quiet _ _ _ _ _ _ _ Hout) as Hmid.
  apply existsb_booking in Hmid as (Hmid & _).
  match type of Hd with
  | ?l1 ++ ?l2 ++ ?x :: ?l3 = _ =>
      destruct (app_eq_first is_order (l1 ++ l2) x l3 before
                  (Bot.EvBuy amount a' d) after eq_refl eq_refl)
        as [(-> & Hy & ->)|(b' & _ & Hb)];
        [rewrite <- app_assoc; exact Hd | |]
  end.
  - inversion Hy; subst amount a' d. split; [reflexivity|].
    exists f, mid, won. split; [reflexivity|]. split; [exact Hc|].
    split; [exact Hh|]. split; [reflexivity|].
    split; [|split; [reflexivity | exact Hr]].
    rewrite <- ?app_assoc in Hout. rewrite <- ?app_assoc. exact Hout.
  - exfalso. refine (no_order_inside _ _ _ (Bot.EvBuy amount a' d) is_order _ eq_refl Hb).
    rewrite existsb_app, Hmid. reflexivity.
Qed.

Lemma count_wins_le_registered (t : list Bot.Event) :
  (count_wins t <= Z.of_nat (count is_registered t))%Z.
Proof.
  unfold count. induction t as [|e t IH]; [reflexivity|].
  destruct e; cbn [count_wins filter is_registered length]; try exact IH.
  destruct won; lia.
Qed.

(** X15.  In the scan of the instruments every order sent is followed, before
    any other order, by its outcome, by its registration with the staking
    collaborator and by its entry in the predictor's log, both with the
    instrument of the order and with the outcome [check_win] gave, or as a
    loss when the order failed; nothing is registered but an order just
    sent, and there are as many registrations and log entries as orders.
    There are no more orders than instruments inside the payout band, no
    more wins than orders, and the wins returned are the wins booked. *)
Theorem every_order_is_booked (env : Bot.Env) (config : Bot.Config)
    (all_profit : list (Bot.asset * list (string * Q))) (todo : list Bot.asset)
    (wins : Z) (h : Bot.History) :
  exists r delta,
    Bot.for_assets env config all_profit todo wins h = (r, h ++ delta) /\
    (forall before amount a d after,
       delta = before ++ Bot.EvBuy amount a d :: after ->
       exists mid won f rest,
         order_outcome env (h ++ before) amount a d mid won /\
         after = mid ++ Bot.EvRegisterTrade a won :: Bot.EvLogTrade f won :: rest) /\
    (forall before a won after,
       delta = before ++ Bot.EvRegisterTrade a won :: after ->
       exists before' amount d mid f rest,
         before = before' ++ Bot.EvBuy amount a d :: mid /\
         order_outcome env (h ++ before') amount a d mid won /\
         after = Bot.EvLogTrade f won :: rest) /\
    count is_registered delta = count is_order delta /\
    count is_logged_trade delta = count is_order delta /\
    (count is_order delta
       <= length (filter (payout_in_band config all_profit) todo))%nat /\
    (0 <= count_wins delta <= Z.of_nat (count is_order delta))%Z /\
    (forall w, r = Ok w -> w = (wins + count_wins delta)%Z).
Proof.
  destruct (for_assets_shape env config all_profit todo wins h)
    as (r & delta & E & _ & (later & Hf & _) & Ho & Hr & Hl & _ & _ & _).
  destruct (for_assets_total env config all_profit todo wins h)
    as (r' & delta' & E' & Hw & _).
  rewrite E in E'. inversion E' as [[Hr' Hd]]. apply app_inv_head in Hd.
  subst r' delta'.
  destruct (for_assets_booked env config all_profit todo wins h)
    as (r' & delta' & Eb & Hb).
  rewrite E in Eb. inversion Eb as [[Hr' Hd]]. apply app_inv_head in Hd.
  subst r' delta'.
  exists r, delta. split_all; try assumption.
  - exact (booked_forward env h delta Hb).
  - exact (booked_backward env h delta Hb).
  - rewrite Hf, length_app. lia.
  - apply count_wins_nonneg.
  - rewrite <- Hr. apply count_wins_le_registered.
Qed.

(** ** Turn after turn *)

(** What one turn does to the win count, and how it ends. *)
Lemma cycle_bounds (env : Bot.Env) (config : Bot.Config) (s : Bot.Session)
    (h : Bot.History) :
  exists (r : result Bot.Session) (delta : list Bot.Event),
    Bot.cycle env config s h = (r, h ++ delta) /\
    (forall s', r = Ok s' ->
       (0 <= Bot.daily_wins s)%Z ->
       (0 <= Bot.daily_wins s'
          <= Z.max (Bot.daily_wins s)
               (Bot.stop_win_victories config - 1
                + Z.of_nat (length (Bot.assets config))))%Z) /\
    (forall s', r = Ok s' ->
       exists before secs,
         delta = before ++ [Bot.EvSleep secs] /\
         count is_sleep before = 0%nat /\
         (secs = 60 \/ secs = 3600 \/ secs = Bot.timeframe_main config)%Z) /\
    (count is_sleep delta <= 1)%nat.
Proof.
  destruct (news_reported env h) eqn:Hn.
  { eexists. eexists. rewrite (cycle_news env config s h Hn).
    split; [reflexivity|]. split; [|split].
    - intros s' E Hs. inversion E; subst s'. lia.
    - intros s' _. exists (turn_opening ++ [Bot.EvCheckHighImpactNews true;
                                            Bot.EvLog Bot.info Bot.MsgNewsWait]), 60%Z.
      split; [reflexivity|]. split; [reflexivity | now left].
    - cbn. lia. }
  set (now := time_read env h).
  assert (0 <= Bot.daily_wins s ->
          0 <= Bot.daily_wins (Bot.rollover s now) <= Bot.daily_wins s)%Z as Hroll.
  { intros Hs. rewrite rollover_wins. destruct (new_day s now); lia. }
  destruct (Z.le_gt_cases (Bot.stop_win_victories config)
              (Bot.daily_wins (Bot.rollover s now))) as [Hcap|Hcap].
  { eexists. eexists. unfold now in *.
    rewrite (cycle_daily_stop env config s h Hn Hcap).
    split; [reflexivity|]. split; [|split].
    - intros s' E Hs. inversion E; subst s'. specialize (Hroll Hs). lia.
    - intros s' _. exists (turn_opening ++ [Bot.EvCheckHighImpactNews false;
                                            Bot.EvNow (time_read env h);
                                            Bot.EvLog Bot.info Bot.MsgDailyStopWin]),
                          3600%Z.
      split; [reflexivity|]. split; [reflexivity | right; now left].
    - cbn. lia. }
  rewrite (cycle_running env config s h Hn Hcap). cbv zeta. fold now.
  set (h1 := h ++ turn_opening ++ [Bot.EvCheckHighImpactNews false; Bot.EvNow now]).
  destruct (for_assets_shape env config (Bot.get_all_profit env h1)
              (Bot.assets config) (Bot.daily_wins (Bot.rollover s now))
              (h1 ++ [Bot.EvGetAllProfit]))
    as (r & delta & E & _ & (later & Hf & _) & Ho & _ & _ & Hsl & Hw & _).
  rewrite E.
  assert (count is_order delta <= length (Bot.assets config))%nat as Hlen.
  { pose proof (filter_length_le
                  (payout_in_band config (Bot.get_all_profit env h1))
                  (Bot.assets config)) as Hfl.
    rewrite Hf, length_app in Hfl. lia. }
  destruct r as [wins|e].
  - eexists. eexists. unfold h1. rewrite <- !app_assoc.
    split; [reflexivity|]. split; [|split].
    + intros s' Es Hs. inversion Es. cbn [Bot.daily_wins].
      specialize (Hw wins eq_refl). specialize (Hroll Hs). lia.
    + intros s' _.
      exists (turn_opening ++ [Bot.EvCheckHighImpactNews false; Bot.EvNow now]
              ++ [Bot.EvGetAllProfit] ++ delta ++ [Bot.EvLog Bot.info Bot.MsgNextCycle]),
             (Bot.timeframe_main config).
      split; [now rewrite <- !app_assoc|].
      split; [|right; now right].
      rewrite !count_app, Hsl. reflexivity.
    + rewrite !count_app, Hsl. cbn. lia.
  - eexists. eexists. unfold h1. rewrite <- !app_assoc.
    split; [reflexivity|]. split; [|split].
    + intros s' Es. discriminate Es.
    + intros s' Es. discriminate Es.
    + rewrite !count_app, Hsl. cbn. lia.
Qed.

(** X16.  Over any number of turns the win count of a session that starts
    at zero or above never goes below zero, and never above the larger of
    its starting value and the cap minus one plus the number of configured
    instruments: the cap is only looked at when a turn starts. *)
Theorem daily_wins_stay_bounded (env : Bot.Env) (config : Bot.Config)
    (turns : nat) :
  forall (s : Bot.Session) (h : Bot.History),
  (0 <= Bot.daily_wins s)%Z ->
  exists r h',
    Bot.main_loop env config turns s h = (r, h') /\
    forall s', r = Ok s' ->
      (0 <= Bot.daily_wins s'
         <= Z.max (Bot.daily_wins s)
              (Bot.stop_win_victories config - 1
               + Z.of_nat (length (Bot.assets config))))%Z.
Proof.
  induction turns as [|k IH]; intros s h Hs.
  - exists (Ok s), h. split; [reflexivity|]. intros s' E.
    inversion E; subst s'. lia.
  - cbn [Bot.main_loop]. unfold Bot.bind.
    destruct (cycle_bounds env config s h) as (r1 & delta & E1 & Hb & _).
    rewrite E1. destruct r1 as [s1|e].
    + specialize (Hb s1 eq_refl Hs).
      destruct (IH s1 (h ++ delta) (proj1 Hb)) as (r & h' & E & Hr).
      exists r, h'. split; [exact E|]. intros s' Es. specialize (Hr s' Es). lia.
    + exists (Raise e), (h ++ delta). split; [reflexivity|].
      intros s' Es. discriminate Es.
Qed.

Lemma daily_wins_stay_bounded_witness :
  exists r h',
    Bot.main_loop (scripted false noon (Ok breaking_candles) (Ok (true, 7%Z))
                     (Ok (true, 8 # 10)))
      small_config 5 {| Bot.daily_wins := 0; Bot.last_trade_date := None |} []
      = (r, h') /\
    forall s', r = Ok s' -> (0 <= Bot.daily_wins s' <= 3)%Z.
Proof.
  apply (daily_wins_stay_bounded
           (scripted false noon (Ok breaking_candles) (Ok (true, 7%Z))
              (Ok (true, 8 # 10)))
           small_config 5
           {| Bot.daily_wins := 0; Bot.last_trade_date := None |} []).
  cbn. lia.
Defined.

(** X18.  A turn sleeps at most once; a turn that completes sleeps exactly
    once, as its last call, for 60 seconds, for an hour or for
    [timeframe_main] seconds. *)
Theorem every_turn_ends_asleep (env : Bot.Env) (config : Bot.Config)
    (s : Bot.Session) (h : Bot.History) :
  exists r delta,
    Bot.cycle env config s h = (r, h ++ delta) /\
    (count is_sleep delta <= 1)%nat /\
    forall s', r = Ok s' ->
      exists before secs,
        delta = before ++ [Bot.EvSleep secs] /\
        count is_sleep before = 0%nat /\
        (secs = 60 \/ secs = 3600 \/ secs = Bot.timeframe_main config)%Z.
Proof.
  destruct (cycle_bounds env config s h) as (r & delta & E & _ & Hend & Hone).
  now exists r, delta.
Qed.

Lemma existsb_scan_app (t1 t2 : list Bot.Event) :
  existsb is_scan t1 = false -> existsb is_scan t2 = false ->
  existsb is_scan (t1 ++ t2) = false.
Proof. intros H1 H2. now rewrite existsb_app, H1, H2. Qed.

(** A turn that starts at the cap on an unchanged day, or under news, makes
    none of the calls of the scan and leaves the win count as it is. *)
Lemma cycle_without_scan (env : Bot.Env) (config : Bot.Config) (s : Bot.Session)
    (h : Bot.History) :
  news_reported env h = true \/
  (Bot.stop_win_victories config
     <= Bot.daily_wins (Bot.rollover s (time_read env h)))%Z ->
  exists s' delta,
    Bot.cycle env config s h = (Ok s', h ++ delta) /\
    existsb is_scan delta = false /\
    count is_sleep delta = 1%nat /\
    (s' = s \/ s' = Bot.rollover s (time_read env h)).
Proof.
  intros H. destruct (news_reported env h) eqn:Hn.
  - exists s. eexists. rewrite (cycle_news env config s h Hn).
    split; [reflexivity|]. split; [reflexivity|]. split; [reflexivity | now left].
  - destruct H as [H|H]; [discriminate H|].
    eexists. eexists. rewrite (cycle_daily_stop env config s h Hn H).
    split; [reflexivity|]. split; [reflexivity|]. split; [reflexivity | now right].
Qed.

Lemma main_loop_non_positive_cap (env : Bot.Env) (config : Bot.Config)
    (turns : nat) :
  (Bot.stop_win_victories config <= 0)%Z ->
  forall (s : Bot.Session) (h : Bot.History),
  (0 <= Bot.daily_wins s)%Z ->
  exists s' delta,
    Bot.main_loop env config turns s h = (Ok s', h ++ delta) /\
    existsb is_scan delta = false.
Proof.
  intros Hcap. induction turns as [|k IH]; intros s h Hs.
  - exists s, []. now rewrite app_nil_r.
  - cbn [Bot.main_loop]. unfold Bot.bind.
    assert (0 <= Bot.daily_wins (Bot.rollover s (time_read env h)))%Z as Hr.
    { rewrite rollover_wins. destruct (new_day s (time_read env h)); lia. }
    destruct (cycle_without_scan env config s h) as (s1 & d1 & E1 & Hn1 & _ & Hs1).
    { right. lia. }
    rewrite E1.
    destruct (IH s1 (h ++ d1)) as (s' & d2 & E2 & Hn2).
    { destruct Hs1 as [-> | ->]; assumption. }
    exists s', (d1 ++ d2). rewrite E2, app_assoc. split; [reflexivity|].
    now apply existsb_scan_app.
Qed.

(** X17.  With a cap of zero wins or fewer the program never scans: however
    many turns it takes, it makes no payout lookup, no fetch and no order. *)
Theorem non_positive_cap_never_scans (env : Bot.Env) (config : Bot.Config)
    (turns : nat) (h : Bot.History) :
  (Bot.stop_win_victories config <= 0)%Z ->
  exists r delta,
    Bot.main env config turns h = (Ok r, h ++ delta) /\
    existsb is_scan delta = false.
Proof.
  intros Hcap. unfold Bot.main. step_bot.
  destruct (Bot.connect env h) as [[]|e]; step_bot.
  - destruct (main_loop_non_positive_cap env config turns Hcap
                {| Bot.daily_wins := 0; Bot.last_trade_date := None |}
                ((h ++ [Bot.EvConnect]) ++ [Bot.EvChangeBalance]))
      as (s' & delta & E & Hn); [cbn; lia|].
    rewrite E. eexists. eexists. rewrite <- !app_assoc.
    split; [reflexivity|]. cbn [app existsb is_scan orb]. exact Hn.
  - eexists. eexists. rewrite <- !app_assoc. split; reflexivity.
Qed.

Lemma non_positive_cap_never_scans_witness :
  let config := {| Bot.assets := ["EURUSD"%string];
                   Bot.timeframe_main := 60;
                   Bot.min_payout := 70 # 100;
                   Bot.max_payout := 95 # 100;
                   Bot.trend_ma_fast := 1;
                   Bot.trend_ma_slow := 2;
                   Bot.cfg_volume_period := 2;
                   Bot.stop_win_victories := 0 |} in
  exists r delta,
    Bot.main (scripted false noon (Ok breaking_candles) (Ok (true, 7%Z))
                (Ok (true, 8 # 10))) config 4 [] = (Ok r, [] ++ delta) /\
    existsb is_scan delta = false.
Proof.
  intros config.
  apply (non_positive_cap_never_scans
           (scripted false noon (Ok breaking_candles) (Ok (true, 7%Z))
              (Ok (true, 8 # 10))) config 4 []).
  cbn. lia.
Defined.

(** X19.  When the connection fails, [main] logs the failure and returns:
    the balance is not switched, and not one turn of the loop is taken. *)
Theorem failed_connection_ends_main (env : Bot.Env) (config : Bot.Config)
    (turns : nat) (h : Bot.History) (e : Exn) :
  Bot.connect env h = Raise e ->
  Bot.main env config turns h
    = (Ok None, h ++ [Bot.EvConnect;
                      Bot.EvLog Bot.error (Bot.MsgConnectFailed e)]).
Proof.
  intros H. unfold Bot.main. step_bot. rewrite H. step_bot.
  now rewrite <- app_assoc.
Qed.

Lemma failed_connection_ends_main_witness :
  let env := offline (scripted false noon (Ok breaking_candles) (Ok (true, 7%Z))
                        (Ok (true, 8 # 10)))
               (BrokerError "no route"%string) in
  Bot.main env small_config 7 []
    = (Ok None, [] ++ [Bot.EvConnect;
                       Bot.EvLog Bot.error
                         (Bot.MsgConnectFailed (BrokerError "no route"%string))]).
Proof.
  intros env.
  apply (failed_connection_ends_main env small_config 7 []
           (BrokerError "no route"%string)).
  reflexivity.
Defined.

(** X20.  While the news check keeps reporting an event, the loop only
    waits: turn after turn the session stays as it was, no call of the scan
    is made, and each turn sleeps once. *)
Theorem standing_news_freezes_session (env : Bot.Env) (config : Bot.Config)
    (turns : nat) :
  (forall h, Bot.check_high_impact_news env h = true) ->
  forall (s : Bot.Session) (h : Bot.History),
  exists delta,
    Bot.main_loop env config turns s h = (Ok s, h ++ delta) /\
    existsb is_scan delta = false /\
    count is_sleep delta = turns.
Proof.
  intros Hnews. induction turns as [|k IH]; intros s h.
  - exists []. now rewrite app_nil_r.
  - cbn [Bot.main_loop]. unfold Bot.bind.
    rewrite (cycle_news env config s h (Hnews _)).
    set (d1 := turn_opening ++ [Bot.EvCheckHighImpactNews true;
                                Bot.EvLog Bot.info Bot.MsgNewsWait;
                                Bot.EvSleep 60]).
    destruct (IH s (h ++ d1)) as (delta & E & Hn & Hc).
    rewrite E. exists (d1 ++ delta). rewrite app_assoc. split; [reflexivity|].
    split; [now apply existsb_scan_app|].
    rewrite count_app, Hc. reflexivity.
Qed.

Lemma standing_news_freezes_session_witness :
  let s := {| Bot.daily_wins := 1; Bot.last_trade_date := Some noon |} in
  exists delta,
    Bot.main_loop (scripted true noon (Ok breaking_candles) (Ok (true, 7%Z))
                     (Ok (true, 8 # 10))) small_config 3 s []
      = (Ok s, [] ++ delta) /\
    existsb is_scan delta = false /\
    count is_sleep delta = 3%nat.
Proof.
  intros s.
  apply (standing_news_freezes_session
           (scripted true noon (Ok breaking_candles) (Ok (true, 7%Z))
              (Ok (true, 8 # 10))) small_config 3).
  reflexivity.
Defined.

(** X21.  On the first turn that reads a later day than the one recorded,
    a session at or above the cap scans again, provided the cap is above
    zero: the payout lookup is made, and the turn ends with as many wins
    as it booked itself. *)
Theorem new_day_lifts_daily_stop (env : Bot.Env) (config : Bot.Config)
    (s : Bot.Session) (h : Bot.History) (t : Z) :
  news_reported env h = false ->
  Bot.last_trade_date s = Some t ->
  (Bot.date t < Bot.date (time_read env h))%Z ->
  (0 < Bot.stop_win_victories config)%Z ->
  exists r delta,
    Bot.cycle env config s h = (r, h ++ delta) /\
    In Bot.EvGetAllProfit delta /\
    forall s', r = Ok s' -> Bot.daily_wins s' = count_wins delta.
Proof.
  intros Hn Hs Ht Hcap.
  assert (new_day s (time_read env h) = true) as Hnew
    by (unfold new_day; rewrite Hs; now apply Z.ltb_lt).
  assert (Bot.daily_wins (Bot.rollover s (time_read env h))
          < Bot.stop_win_victories config)%Z as Hlt
    by (rewrite rollover_wins, Hnew; exact Hcap).
  destruct (cycle_passed env config s h Hn) as (r & delta & E & _ & Hw).
  exists r, delta. split; [exact E|]. split.
  - rewrite (cycle_running env config s h Hn Hlt) in E. cbv zeta in E.
    set (h1 := h ++ turn_opening ++
                 [Bot.EvCheckHighImpactNews false; Bot.EvNow (time_read env h)])
      in E.
    destruct (for_assets_total env config (Bot.get_all_profit env h1)
                (Bot.assets config)
                (Bot.daily_wins (Bot.rollover s (time_read env h)))
                (h1 ++ [Bot.EvGetAllProfit])) as (r' & d' & E' & _).
    rewrite E' in E. unfold h1 in E.
    assert (h ++ delta
            = h ++ turn_opening ++
                [Bot.EvCheckHighImpactNews false; Bot.EvNow (time_read env h)]
                ++ [Bot.EvGetAllProfit] ++ d'
              ++ match r' with
                 | Ok _ => [Bot.EvLog Bot.info Bot.MsgNextCycle;
                            Bot.EvSleep (Bot.timeframe_main config)]
                 | Raise _ => []
                 end) as Hd.
    { destruct r'; inversion E as [[Hr Hd]]; unfold turn_opening;
        rewrite <- ?app_assoc; cbn [app]; rewrite ?app_nil_r; reflexivity. }
    apply app_inv_head in Hd. rewrite Hd.
    unfold turn_opening. cbn [app In]. auto 10.
  - intros s' Es. destruct (Hw s' Es) as [_ Hds]. rewrite Hnew in Hds.
    rewrite Hds. lia.
Qed.

Lemma new_day_lifts_daily_stop_witness :
  let env := scripted false (noon + Bot.nanoseconds_per_day)
               (Ok inside_candles) (Ok (true, 7%Z)) (Ok (true, 8 # 10)) in
  let s := {| Bot.daily_wins := 2; Bot.last_trade_date := Some noon |} in
  exists r delta,
    Bot.cycle env small_config s [] = (r, [] ++ delta) /\
    In Bot.EvGetAllProfit delta /\
    forall s', r = Ok s' -> Bot.daily_wins s' = count_wins delta.
Proof.
  intros env s.
  apply (new_day_lifts_daily_stop env small_config s [] noon);
    reflexivity.
Defined.

(** X22.  A session at or above the cap stays stopped for the rest of the
    day: as long as the clock reads the day recorded, no turn makes a call
    of the scan, and the win count does not move. *)
Theorem daily_stop_holds_all_day (env : Bot.Env) (config : Bot.Config)
    (day : Z) (turns : nat) :
  (forall h, Bot.date (Bot.timestamp_now env h) = day) ->
  forall (s : Bot.Session) (h : Bot.History) (t : Z),
  Bot.last_trade_date s = Some t -> Bot.date t = day ->
  (Bot.stop_win_victories config <= Bot.daily_wins s)%Z ->
  exists s' delta,
    Bot.main_loop env config turns s h = (Ok s', h ++ delta) /\
    existsb is_scan delta = false /\
    Bot.daily_wins s' = Bot.daily_wins s.
Proof.
  intros Hday. induction turns as [|k IH]; intros s h t Hs Ht Hcap.
  - exists s, []. now rewrite app_nil_r.
  - cbn [Bot.main_loop]. unfold Bot.bind.
    assert (Bot.daily_wins (Bot.rollover s (time_read env h)) = Bot.daily_wins s)
      as Hsame.
    { rewrite rollover_wins. unfold new_day. rewrite Hs.
      assert ((Bot.date t <? Bot.date (time_read env h))%Z = false) as ->;
        [|reflexivity].
      apply Z.ltb_ge. unfold time_read. rewrite Hday, Ht. lia. }
    destruct (cycle_without_scan env config s h) as (s1 & d1 & E1 & Hn1 & _ & Hs1).
    { right. rewrite Hsame. exact Hcap. }
    rewrite E1.
    assert (Bot.daily_wins s1 = Bot.daily_wins s /\
            exists t1, Bot.last_trade_date s1 = Some t1 /\ Bot.date t1 = day)
      as (Hw1 & t1 & Hd1 & Ht1).
    { destruct Hs1 as [-> | ->].
      - split; [reflexivity|]. now exists t.
      - split; [exact Hsame|]. exists (time_read env h).
        split; [reflexivity | apply Hday]. }
    destruct (IH s1 (h ++ d1) t1 Hd1 Ht1) as (s' & d2 & E2 & Hn2 & Hw2);
      [rewrite Hw1; exact Hcap|].
    exists s', (d1 ++ d2). rewrite E2, app_assoc. split; [reflexivity|].
    split; [now apply existsb_scan_app | congruence].
Qed.

Lemma daily_stop_holds_all_day_witness :
  let s := {| Bot.daily_wins := 2; Bot.last_trade_date := Some noon |} in
  exists s' delta,
    Bot.main_loop (scripted false noon (Ok breaking_candles) (Ok (true, 7%Z))
                     (Ok (true, 8 # 10))) small_config 3 s []
      = (Ok s', [] ++ delta) /\
    existsb is_scan delta = false /\
    Bot.daily_wins s' = 2%Z.
Proof.
  intros s.
  apply (daily_stop_holds_all_day
           (scripted false noon (Ok breaking_candles) (Ok (true, 7%Z))
              (Ok (true, 8 # 10))) small_config (Bot.date noon) 3
           (fun _ => eq_refl) s [] noon eq_refl eq_refl).
  cbn. lia.
Defined.
